(** * wc: word, line, byte and display-width counts

    A shallow embedding of [wc.cpp] and the properties of its counter,
    its checked accumulation and its driver.

    Conventions.
    - [std::uintmax_t] is a 64-bit unsigned integer: a [Z] kept in
      [0 .. UINTMAX_MAX], every addition written with its wrap-around.
    - A byte ([unsigned char]) is an [ascii]; an input is a [list ascii].
    - The process locale installed by [std::locale::global(std::locale(""))]
      is an explicit [Locale] value; [c_locale] is the "C" locale.
    - [std::istream] is a record holding what the underlying source will
      still deliver and the three [iostate] bits; [std::ostream] is the
      string written so far.
    - What the libraries do around the program is part of the model: the
      file-system queries answer or throw, [getopt_long] writes its own
      line for an option it does not recognise, and [std::cin] reads
      through stdio until [sync_with_stdio(false)] is called. *)

From Stdlib Require Import ZArith Bool Ascii String Lia Arith.
From Stdlib Require Import DecimalString Permutation List.
Import ListNotations.
Local Open Scope Z_scope.

(* ================================================================= *)
(** ** Data model *)

Record Options : Type := mkOptions {
  count_bytes : bool;
  count_lines : bool;
  count_words : bool;
  count_max_line_length : bool
}.

Record FileStatistics : Type := mkStats {
  lines : Z;
  words : Z;
  bytes : Z;
  max_line_length : Z
}.

Inductive ParseOptionsError : Type :=
| help_requested
| unknown_option.

(** [std::expected<T, E>]. *)
Inductive expected (T E : Type) : Type :=
| value (t : T)
| unexpected (e : E).
Arguments value {T E} t.
Arguments unexpected {T E} e.

Definition EXIT_SUCCESS : Z := 0.
Definition EXIT_FAILURE : Z := 1.

(** [std::uintmax_t]: 64 bits, arithmetic modulo [2^64]. *)
Definition UINTMAX_MAX : Z := 18446744073709551615.
Definition wrap (x : Z) : Z := x mod (UINTMAX_MAX + 1).

Definition b2z (b : bool) : Z := if b then 1 else 0.

(** [FileStatistics {}] and [FileStatistics {0}]. *)
Definition zero_stats : FileStatistics := mkStats 0 0 0 0.

(* ================================================================= *)
(** ** The locale *)

(** What the program takes from the process locale: the two <cctype>
    classifiers, and the digits (with the locale's grouping) that the
    [L] format option produces for an unsigned integer. *)
Record Locale : Type := mkLocale {
  isprint : ascii -> bool;
  isspace : ascii -> bool;
  format_L : Z -> string
}.

Definition code (c : ascii) : Z := Z.of_N (N_of_ascii c).

(** The "C" locale: [isprint] is 0x20..0x7E, [isspace] is 0x09..0x0D and
    0x20, and numbers are written in plain decimal digits. *)
Definition c_isprint (c : ascii) : bool := (32 <=? code c) && (code c <=? 126).
Definition c_isspace (c : ascii) : bool :=
  ((9 <=? code c) && (code c <=? 13)) || (code c =? 32).
Definition decimal (n : Z) : string :=
  NilZero.string_of_uint (N.to_uint (Z.to_N n)).

Definition c_locale : Locale := mkLocale c_isprint c_isspace decimal.

(* ================================================================= *)
(** ** std::istream *)

(** [source] is what the underlying source still holds.  When [faulty]
    is set, the source raises an input fault, instead of reporting end
    of input, as soon as a read asks for more than it holds. *)
Record istream : Type := mkIstream {
  source : list ascii;
  faulty : bool;
  eofbit : bool;
  failbit : bool;
  badbit : bool
}.

Definition ios_good (ins : istream) : bool :=
  negb (eofbit ins || failbit ins || badbit ins).
(** [operator bool] of a stream is [!fail()]. *)
Definition ios_fail (ins : istream) : bool := failbit ins || badbit ins.
Definition ios_bad (ins : istream) : bool := badbit ins.

(** A stream just opened on [data], ending in a clean end of input. *)
Definition open_on (data : list ascii) : istream :=
  mkIstream data false false false false.
(** A stream just opened on a source that faults once [data] is used up. *)
Definition open_faulty (data : list ascii) : istream :=
  mkIstream data true false false false.

(** [is.read(buf, n)] followed by [is.gcount()]: the characters stored
    (their number is the gcount) and the stream afterwards.
    - a stream that is not good: the sentry sets failbit, nothing is read;
    - [n] characters available: they are stored, the state is unchanged;
    - fewer available and the source ends: all are stored, eofbit and
      failbit are set;
    - fewer available and the source faults: the exception of the stream
      buffer is caught, badbit is set and the gcount stays 0. *)
Definition istream_read (ins : istream) (n : nat) : list ascii * istream :=
  if negb (ios_good ins) then
    ([], mkIstream (source ins) (faulty ins) (eofbit ins) true (badbit ins))
  else if (n <=? length (source ins))%nat then
    (firstn n (source ins),
     mkIstream (skipn n (source ins)) (faulty ins) false false false)
  else if faulty ins then
    ([], mkIstream [] true false false true)
  else
    (source ins, mkIstream [] false true true false).

(* ================================================================= *)
(** ** The counter: wc *)

(** The local variables of [wc] that live across the read loop. *)
Record counter : Type := mkCounter {
  stats : FileStatistics;
  in_word : bool;
  line_pos : Z
}.

Definition init_counter : counter := mkCounter zero_stats false 0.

Definition bufsize : nat := Z.to_nat 262144.
Definition tab_width : Z := 8.

Section Counter.
Variable loc : Locale.

(** The body of the [for] loop: the [switch (c)]. *)
Definition classify (st : counter) (c : ascii) : counter :=
  let s := stats st in
  let close_line (s : FileStatistics) :=
    (* case '\r': case '\f': *)
    mkCounter
      (mkStats (lines s) (words s) (bytes s)
               (Z.max (line_pos st) (max_line_length s)))
      false 0 in
  if (c =? "010")%char then            (* case '\n': ++lines, fallthrough *)
    close_line (mkStats (wrap (lines s + 1)) (words s) (bytes s)
                        (max_line_length s))
  else if ((c =? "013") || (c =? "012"))%char then
    close_line s
  else if (c =? "009")%char then       (* case '\t' *)
    mkCounter s false
      (wrap (line_pos st + (tab_width - line_pos st mod tab_width)))
  else if (c =? " ")%char then         (* case ' ': ++line_pos, fallthrough *)
    mkCounter s false (wrap (line_pos st + 1))
  else if (c =? "011")%char then       (* case '\v' *)
    mkCounter s false (line_pos st)
  else                                 (* default *)
    let in_word2 := negb (isspace loc c) in
    mkCounter
      (mkStats (lines s)
               (wrap (words s + b2z (negb (in_word st) && in_word2)))
               (bytes s) (max_line_length s))
      in_word2
      (wrap (line_pos st + b2z (isprint loc c))).

(** One chunk: [stats.bytes += count], then the [for] loop when one of
    the classifying counters is requested. *)
Definition count_chunk (options : Options) (st : counter)
           (buf : list ascii) : counter :=
  let s := stats st in
  let st1 :=
    mkCounter (mkStats (lines s) (words s)
                       (wrap (bytes s + Z.of_nat (length buf)))
                       (max_line_length s))
              (in_word st) (line_pos st) in
  if count_lines options || count_max_line_length options
     || count_words options
  then fold_left classify buf st1
  else st1.

(** [while (is) { is.read(buf, bufsize); ... }] with a read size [n].
    Each turn that does not leave the loop takes at least one byte from
    the source, so [fuel] above the length of the source is never used
    up (lemma [wc_loop_fuel]). *)
Fixpoint wc_loop (fuel n : nat) (options : Options) (st : counter)
         (ins : istream) : counter * istream :=
  match fuel with
  | O => (st, ins)
  | S fuel' =>
      if ios_fail ins then (st, ins)
      else
        let '(buf, ins') := istream_read ins n in
        match buf with
        | [] => (st, ins')                        (* count == 0: break *)
        | _ :: _ => wc_loop fuel' n options (count_chunk options st buf) ins'
        end
  end.

Definition wc (options : Options) (ins : istream)
  : expected FileStatistics bool * istream :=
  let '(st, ins') :=
    wc_loop (S (length (source ins))) bufsize options init_counter ins in
  let s := stats st in
  let s' := mkStats (lines s) (words s) (bytes s)
                    (Z.max (line_pos st) (max_line_length s)) in
  if ios_bad ins' then (unexpected false, ins') else (value s', ins').

End Counter.

(* ================================================================= *)
(** ** Output: the formatter and the diagnostics *)

Definition newline : string := String "010" EmptyString.

Fixpoint spaces (n : nat) : string :=
  match n with
  | O => EmptyString
  | S k => String " " (spaces k)
  end.

(** The [>7] of a format specification: fill with spaces on the left up
    to a minimum width. *)
Definition right_align (width : nat) (s : string) : string :=
  (spaces (width - String.length s) ++ s)%string.

(** [help(os, argv0)]. *)
Definition help (os argv0 : string) : string :=
  (os ++ "USAGE
    " ++ argv0 ++ " [OPTION]... [FILE]...

NAME
    " ++ argv0 ++ " - word, line, and byte count.

DESCRIPTION
    Print line, word, and byte counts for each FILE, and a total line if more
    than one FILE is specified. A line is defined as a string of characters
    delimited by a <newline> character, and a word is defined as a non-zero-
    -length sequence of printable characters delimited by white space. 

    When an option is specified, " ++ argv0 ++ " only reports the information requested by
    that option. The default action is equivalent to all the flags -clw having
    been specified.

    When no FILE, or when FILE is -, read standard input.

    If more than one input file is specified, a line of cumulative counts for
    all the files is displayed on a separate line after the output for the last
    file.

    By default, the standard output containts a line for each input file of the 
    form:
        lines    words    bytes    file_name

OPTION:
    -c, --bytes                 print the byte counts.
    -l, --lines                 print the newline counts.
    -L, --max-line-length       print the maximum display width.
    -w, --words                 print the word counts.
    -h, --help                  display this help and exit.

EXIT STATUS:
    The " ++ argv0 ++ " utility exits with 0 on success, or elsewise if an error occurs.
")%string.

(** [usage_err(os, argv0)]. *)
Definition usage_err (os argv0 : string) : string :=
  (os ++ "The syntax of the command is incorrect." ++ newline ++ "Try "
      ++ argv0 ++ " -h for more information." ++ newline)%string.

(** [read_err(os, file)]; [errno_message] is the text of
    [std::error_code {errno, std::generic_category()}.message()]. *)
Definition read_err (errno_message os file : string) : string :=
  (os ++ "error: failed to process '" ++ file ++ "': " ++ errno_message
      ++ newline)%string.

(** [chkd_add(res, a, b)]: the flag returned and [res] afterwards. *)
Definition chkd_add (res a b : Z) : bool * Z :=
  if wrap (a + b) <? a then (false, res)
  else (true, wrap (a + b)).

Section Formatter.
Variable loc : Locale.

(** [std::format("  {:>7L}", n)]. *)
Definition format_count (n : Z) : string :=
  ("  " ++ right_align 7 (format_L loc n))%string.

(** [write_counts(os, options, stats, file)]; a null [file] is [None]. *)
Definition write_counts (os : string) (options : Options)
           (s : FileStatistics) (file : option string) : string :=
  let os := if count_lines options
            then (os ++ format_count (lines s))%string else os in
  let os := if count_words options
            then (os ++ format_count (words s))%string else os in
  let os := if count_bytes options
            then (os ++ format_count (bytes s))%string else os in
  let os := if count_max_line_length options
            then (os ++ format_count (max_line_length s))%string else os in
  let os := match file with
            | Some f => (os ++ "  " ++ f)%string
            | None => os
            end in
  (os ++ newline)%string.
End Formatter.

(* ================================================================= *)
(** ** Option parsing *)

(** The loop over [getopt_long]: [cs] is the sequence of values it
    returns before -1. *)
Fixpoint parse_options_from (options : Options) (cs : list ascii)
  : expected Options ParseOptionsError :=
  match cs with
  | [] => value options
  | c :: cs' =>
      if (c =? "c")%char then
        parse_options_from
          (mkOptions true (count_lines options) (count_words options)
                     (count_max_line_length options)) cs'
      else if (c =? "l")%char then
        parse_options_from
          (mkOptions (count_bytes options) true (count_words options)
                     (count_max_line_length options)) cs'
      else if (c =? "L")%char then
        parse_options_from
          (mkOptions (count_bytes options) (count_lines options)
                     (count_words options) true) cs'
      else if (c =? "w")%char then
        parse_options_from
          (mkOptions (count_bytes options) (count_lines options) true
                     (count_max_line_length options)) cs'
      else if (c =? "h")%char then unexpected help_requested
      else unexpected unknown_option
  end.

Definition parse_options (cs : list ascii)
  : expected Options ParseOptionsError :=
  parse_options_from (mkOptions false false false false) cs.

(* ================================================================= *)
(** ** The driver *)

(** The standard streams of the process. *)
Record world : Type := mkWorld {
  cin : istream;
  cout : string;
  cerr : string
}.

(** The outcome of [fs::is_directory(path)] and [fs::is_regular_file(path)],
    the overloads that throw: an answer, or a [filesystem_error] when the
    status of the path cannot be had (for a reason other than the path
    not being there).  Nothing catches it, so [std::terminate] ends the
    run with SIGABRT; [report] is what the runtime then writes on the
    error stream. *)
Inductive query : Type :=
| answers (b : bool)
| throws (report : string).

(** What the process finds around it: the file system as the three
    calls the driver makes on a path, the message of [errno], and the
    line [getopt_long], whose [opterr] is left at 1, writes on the error
    stream for an option it does not recognise. *)
Record environment : Type := mkEnv {
  is_directory : string -> query;
  is_regular_file : string -> query;
  ifstream : string -> istream;
  errno_message : string;
  getopt_message : string
}.

(** The status a shell reports for a run ended by SIGABRT (128 + 6). *)
Definition SIGABRT_STATUS : Z := 134.

(** The error stream after [parse_options]: the loop ends on an unknown
    option when [getopt_long] returns ['?'], having written its own line
    on the error stream; on every other way out it has written
    nothing. *)
Definition parse_options_cerr (env : environment) (cs : list ascii)
           (os : string) : string :=
  match parse_options cs with
  | unexpected unknown_option => (os ++ getopt_message env)%string
  | _ => os
  end.

(** The [std::istream&] handed to [wc_file]: [std::cin], whose state
    every use shares, or a [std::ifstream] local to one loop turn. *)
Inductive istream_ref : Type :=
| ref_cin
| ref_file (ins : istream).

(** A stream that is synchronised with stdio reads through [fread],
    which reports an input fault as a short read and raises nothing: the
    stream sees a fault of its source as the end of the input. *)
Definition stdio_synchronised (ins : istream) : istream :=
  mkIstream (source ins) false (eofbit ins) (failbit ins) (badbit ins).

(** The stream a reference stands for.  In the loop over the operands
    [std::cin] is still synchronised with stdio:
    [std::ios_base::sync_with_stdio(false)] is called on the path without
    operands only, where [wc_file_stdin] takes [cin w] as it is. *)
Definition deref (w : world) (r : istream_ref) : istream :=
  match r with
  | ref_cin => stdio_synchronised (cin w)
  | ref_file ins => ins
  end.

Definition store (w : world) (r : istream_ref) (ins : istream) : world :=
  match r with
  | ref_cin => mkWorld ins (cout w) (cerr w)
  | ref_file _ => w
  end.

Definition put_cout (w : world) (os : string) : world :=
  mkWorld (cin w) os (cerr w).
Definition put_cerr (w : world) (os : string) : world :=
  mkWorld (cin w) (cout w) os.

(** What one pass of the driver's loop, or the loop, leaves behind: the
    run ends with a status, [main] returning it or [std::terminate]
    ending the run with [SIGABRT_STATUS], or goes on with the running
    total. *)
Inductive outcome : Type :=
| returned (status : Z) (w : world)
| running (total_stats : FileStatistics) (w : world).

Section Driver.
Variable loc : Locale.
Variable env : environment.

(** [wc_file(options, is, file, nfiles, total_stats)]: the status
    returned, [total_stats] afterwards and the streams afterwards. *)
Definition wc_file (options : Options) (r : istream_ref) (file : string)
           (nfiles : Z) (total_stats : FileStatistics) (w : world)
  : Z * FileStatistics * world :=
  let '(res, ins') := wc loc options (deref w r) in
  let w := store w r ins' in
  match res with
  | unexpected _ =>
      (EXIT_SUCCESS, total_stats,
       put_cerr w (read_err (errno_message env) (cerr w) file))
  | value s =>
      let w := put_cout w (write_counts loc (cout w) options s (Some file)) in
      if 1 <? nfiles then
        let t := mkStats (lines total_stats) (words total_stats)
                         (bytes total_stats)
                         (Z.max (max_line_length s)
                                (max_line_length total_stats)) in
        let '(ok, l) := chkd_add (lines t) (lines t) (lines s) in
        let t := mkStats l (words t) (bytes t) (max_line_length t) in
        if negb ok then
          (EXIT_FAILURE, t,
           put_cerr w (cerr w ++ "Error: integer overflow in total lines."
                              ++ newline)%string)
        else
          let '(ok, x) := chkd_add (words t) (words t) (words s) in
          let t := mkStats (lines t) x (bytes t) (max_line_length t) in
          if negb ok then
            (EXIT_FAILURE, t,
             put_cerr w (cerr w ++ "Error: integer overflow in total words."
                                ++ newline)%string)
          else
            let '(ok, b) := chkd_add (bytes t) (bytes t) (bytes s) in
            let t := mkStats (lines t) (words t) b (max_line_length t) in
            if negb ok then
              (EXIT_FAILURE, t,
               put_cerr w (cerr w ++ "Error: integer overflow in total bytes."
                                  ++ newline)%string)
            else (EXIT_SUCCESS, t, w)
      else (EXIT_SUCCESS, total_stats, w)
  end.

(** The three-argument overload [wc_file(options, is, file)], called
    on [std::cin] only, after [std::ios_base::sync_with_stdio(false)]:
    the stream reads through its own file buffer, whose faults are
    those of [istream_read]. *)
Definition wc_file_stdin (options : Options) (file : string) (w : world)
  : Z * world :=
  let '(res, ins') := wc loc options (cin w) in
  let w := store w ref_cin ins' in
  match res with
  | unexpected _ =>
      (EXIT_FAILURE, put_cerr w (read_err (errno_message env) (cerr w) file))
  | value s =>
      (EXIT_SUCCESS,
       put_cout w (write_counts loc (cout w) options s None))
  end.

(** An exception that nothing catches: the runtime writes its report
    on the error stream and the run ends with SIGABRT. *)
Definition terminate (report : string) (w : world) : outcome :=
  returned SIGABRT_STATUS (put_cerr w (cerr w ++ report)%string).

(** One turn of [for (int i {optind}; i < argc; ++i)] on [argv[i]]. *)
Definition main_step (options : Options) (nfiles : Z) (arg : string)
           (total_stats : FileStatistics) (w : world) : outcome :=
  match is_directory env arg with
  | throws report => terminate report w
  | answers true =>
      let w := put_cerr w (cerr w ++ "wc: " ++ arg ++ ": Is a directory."
                                  ++ newline)%string in
      running total_stats
              (put_cout w (write_counts loc (cout w) options zero_stats
                                        (Some arg)))
  | answers false =>
      match is_regular_file env arg with
      | throws report => terminate report w
      | answers true =>
          let '(status, t, w) :=
            wc_file options (ref_file (ifstream env arg)) arg nfiles
                    total_stats w in
          if status =? EXIT_FAILURE then returned EXIT_FAILURE w
          else running t w
      | answers false =>
          if (arg =? "-")%string then
            let '(status, t, w) :=
              wc_file options ref_cin arg nfiles total_stats w in
            if status =? EXIT_FAILURE then returned EXIT_FAILURE w
            else running t w
          else
            running total_stats
                    (put_cerr w (cerr w ++ "wc: " ++ arg
                                        ++ ": No such file or directory."
                                        ++ newline)%string)
      end
  end.

Fixpoint main_loop (options : Options) (nfiles : Z) (args : list string)
         (total_stats : FileStatistics) (w : world) : outcome :=
  match args with
  | [] => running total_stats w
  | arg :: args' =>
      match main_step options nfiles arg total_stats w with
      | returned status w' => returned status w'
      | running t w' => main_loop options nfiles args' t w'
      end
  end.

(** [main]: [argv0] is [argv[0]], [cs] the values [getopt_long] returns
    and [args] the operands [argv[optind .. argc-1]].  The result is the
    status the run ends with and the standard streams at that point. *)
Definition main (argv0 : string) (cs : list ascii) (args : list string)
           (w : world) : Z * world :=
  match parse_options cs with
  | unexpected help_requested => (EXIT_SUCCESS, put_cout w (help (cout w) argv0))
  | unexpected unknown_option =>
      (EXIT_FAILURE,
       put_cerr w (usage_err (parse_options_cerr env cs (cerr w)) argv0))
  | value options =>
      let options :=
        if negb (count_lines options || count_words options
                 || count_bytes options || count_max_line_length options)
        then mkOptions true true true (count_max_line_length options)
        else options in
      match args with
      | [] =>
          (* std::ios_base::sync_with_stdio(false) *)
          wc_file_stdin options "stdin"%string w
      | _ :: _ =>
          let nfiles := Z.of_nat (length args) in
          match main_loop options nfiles args zero_stats w with
          | returned status w' => (status, w')
          | running total_stats w' =>
              if 1 <? nfiles then
                (0, put_cout w' (write_counts loc (cout w') options
                                              total_stats (Some "total"%string)))
              else (0, w')
          end
      end
  end.

End Driver.

(* ================================================================= *)
(** ** Running the model *)

Definition bytes_of (s : string) : list ascii := list_ascii_of_string s.

Definition all_options : Options := mkOptions true true true true.

(** A process started with [input] on its standard input. *)
Definition start (input : list ascii) : world :=
  mkWorld (open_on input) EmptyString EmptyString.

(** A file system given as a list of directories and a list of regular
    files with their contents. *)
Definition env_of (dirs : list string) (files : list (string * list ascii))
  : environment :=
  mkEnv (fun p => answers (existsb (String.eqb p) dirs))
        (fun p => answers (existsb (fun f => String.eqb p (fst f)) files))
        (fun p => match find (fun f => String.eqb p (fst f)) files with
                  | Some f => open_on (snd f)
                  | None => mkIstream [] false false true false
                  end)
        "Input/output error"%string
        EmptyString.

(** [env] where [getopt_long] writes [message] for the option it does
    not recognise. *)
Definition reporting (message : string) (env : environment) : environment :=
  mkEnv (is_directory env) (is_regular_file env) (ifstream env)
        (errno_message env) message.

(** [env] where the status of [path] cannot be had: the query on it
    throws, and the runtime writes [report]. *)
Definition failing_on (path report : string) (env : environment)
  : environment :=
  mkEnv (fun p => if (p =? path)%string then throws report
                  else is_directory env p)
        (fun p => if (p =? path)%string then throws report
                  else is_regular_file env p)
        (ifstream env) (errno_message env) (getopt_message env).

Definition with_bytes (b : Z) (st : counter) : counter :=
  mkCounter (mkStats (lines (stats st)) (words (stats st)) b
                     (max_line_length (stats st)))
            (in_word st) (line_pos st).

(** The stream once end of input has been met. *)
Definition at_eof : istream := mkIstream [] false true true false.

Section WholeInput.
Variable loc : Locale.
Variable options : Options.

(** The classification of a buffer, whatever the byte counter is. *)
Definition classify_all (st : counter) (buf : list ascii) : counter :=
if count_lines options || count_max_line_length options
   || count_words options
then fold_left (classify loc) buf st
else st.

(** What the loop computes on a whole input: nothing on the empty
  input, one chunk's work otherwise. *)
Definition consume (st : counter) (data : list ascii) : counter :=
match data with
| [] => st
| _ :: _ => count_chunk loc options st data
end.

End WholeInput.

(* ================================================================= *)
(** ** What the counters are meant to count *)

(** The number of bytes of [l] equal to [b]. *)
Definition count_byte (b : ascii) (l : list ascii) : nat :=
  length (filter (Ascii.eqb b) l).

(** ASCII whitespace: 0x09-0x0D and 0x20. *)
Definition ascii_whitespace (c : ascii) : bool :=
  ((9 <=? code c) && (code c <=? 13)) || (code c =? 32).

(** The pieces of [l] between the bytes that satisfy [sep]; there is one
    more piece than there are separators, and pieces may be empty. *)
Fixpoint fields (sep : ascii -> bool) (l : list ascii) : list (list ascii) :=
  match l with
  | [] => [[]]
  | c :: l' =>
      if sep c then [] :: fields sep l'
      else match fields sep l' with
           | [] => [[c]]
           | f :: fs => (c :: f) :: fs
           end
  end.

Definition nonempty (f : list ascii) : bool :=
  match f with [] => false | _ :: _ => true end.

(** The maximal runs of bytes that are not whitespace. *)
Definition maximal_runs (ws : ascii -> bool) (l : list ascii)
  : list (list ascii) :=
  filter nonempty (fields ws l).

Definition count_runs (ws : ascii -> bool) (l : list ascii) : nat :=
  length (maximal_runs ws l).

(** The bytes at which a run starts, [iw] telling whether the byte before
    [l] was inside a run. *)
Fixpoint run_starts (ws : ascii -> bool) (iw : bool) (l : list ascii) : nat :=
  match l with
  | [] => O
  | c :: l' =>
      ((if negb iw && negb (ws c) then 1 else 0)
       + run_starts ws (negb (ws c)) l')%nat
  end.

(** The first piece is non-empty exactly when [l] starts inside a run. *)
Definition starts_in_run (ws : ascii -> bool) (l : list ascii) : bool :=
  match l with
  | [] => false
  | c :: _ => negb (ws c)
  end.


(* ================================================================= *)
(** ** The counter's own view of its input *)

(** The bytes for which the [switch] has a case of its own. *)
Definition switch_case (c : ascii) : bool :=
  ((c =? "010") || (c =? "013") || (c =? "012") || (c =? "009")
   || (c =? " ") || (c =? "011"))%char.

(** The bytes after which the counter is outside a word. *)
Definition separator (loc : Locale) (c : ascii) : bool :=
  switch_case c || isspace loc c.


(* ================================================================= *)
(** ** Display width *)

(** The bytes that end a display line. *)
Definition line_break (c : ascii) : bool :=
  ((c =? "010") || (c =? "013") || (c =? "012"))%char.

Definition max_list (l : list Z) : Z := fold_right Z.max 0 l.

Section DisplayWidth.
Variable loc : Locale.

(** The display column after byte [c] at column [col]: a tab moves to
    the next multiple of 8, a space takes one column, a vertical tab
    none, and any other byte one column when the locale has it
    printable. *)
Definition advance (col : Z) (c : ascii) : Z :=
  if (c =? "009")%char then col + (8 - col mod 8)
  else if (c =? " ")%char then col + 1
  else if (c =? "011")%char then col
  else if isprint loc c then col + 1
  else col.

Definition width_from (col : Z) (line : list ascii) : Z :=
  fold_left advance line col.

Definition display_width (line : list ascii) : Z := width_from 0 line.

(** The width of the widest display line of an input. *)
Definition widest_line (data : list ascii) : Z :=
  max_list (map display_width (fields line_break data)).

(** The widths of the lines [ls], the first of which starts at [col]. *)
Definition widths_from (col : Z) (ls : list (list ascii)) : list Z :=
  match ls with
  | [] => []
  | f :: fs => width_from col f :: map display_width fs
  end.

End DisplayWidth.

(* ================================================================= *)
(** ** The driver's view of its operands *)

(** What the chain of tests in the driver's loop finds an operand to
    be: a directory, a stream to count, nothing it can read, or a path
    on which a test throws. *)
Inductive operand : Type :=
| op_directory
| op_stream (r : istream_ref)
| op_missing
| op_throws (report : string).

Definition resolve (env : environment) (arg : string) : operand :=
  match is_directory env arg with
  | throws report => op_throws report
  | answers true => op_directory
  | answers false =>
      match is_regular_file env arg with
      | throws report => op_throws report
      | answers true => op_stream (ref_file (ifstream env arg))
      | answers false =>
          if (arg =? "-")%string then op_stream ref_cin else op_missing
      end
  end.

(** The operands the counter is run on. *)
Definition counted (env : environment) (arg : string) : bool :=
  match resolve env arg with
  | op_stream _ => true
  | _ => false
  end.

(** A value an [std::uintmax_t] can hold. *)
Definition representable (x : Z) : Prop := 0 <= x <= UINTMAX_MAX.

Definition stats_representable (s : FileStatistics) : Prop :=
  representable (lines s) /\ representable (words s)
  /\ representable (bytes s) /\ representable (max_line_length s).

Definition counter_representable (st : counter) : Prop :=
  stats_representable (stats st) /\ representable (line_pos st).

(** The counters an output line shows, in the order it shows them. *)
Definition requested_fields (options : Options) (s : FileStatistics)
  : list Z :=
  (if count_lines options then [lines s] else [])
  ++ (if count_words options then [words s] else [])
  ++ (if count_bytes options then [bytes s] else [])
  ++ (if count_max_line_length options then [max_line_length s] else []).

Definition concat_strings (l : list string) : string :=
  fold_right String.append EmptyString l.

(** The option characters that select a counter. *)
Definition counting_flag (c : ascii) : bool :=
  ((c =? "c") || (c =? "l") || (c =? "L") || (c =? "w"))%char.

(** The defaulting of [main]: no counter selected means lines, words
    and bytes. *)
Definition effective (options : Options) : Options :=
  if negb (count_lines options || count_words options
           || count_bytes options || count_max_line_length options)
  then mkOptions true true true (count_max_line_length options)
  else options.

(* ================================================================= *)
(** ** Further notions used in the statements *)

(** The options as the characters read select them. *)
Definition options_of (cs : list ascii) : Options :=
  mkOptions (existsb (Ascii.eqb "c") cs) (existsb (Ascii.eqb "l") cs)
            (existsb (Ascii.eqb "w") cs) (existsb (Ascii.eqb "L") cs).

(** Whether the [for] loop over the bytes of a chunk is run at all. *)
Definition classifying (options : Options) : bool :=
  count_lines options || count_max_line_length options
  || count_words options.

(** [t] is [s] with something written after it. *)
Definition extends (s t : string) : Prop :=
  exists u : string, t = (s ++ u)%string.

(** Whether the counter is inside a run after [l], [iw] telling whether
    it was before. *)
Fixpoint ends_in_run (ws : ascii -> bool) (iw : bool) (l : list ascii)
  : bool :=
  match l with
  | [] => iw
  | c :: l' => ends_in_run ws (negb (ws c)) l'
  end.

(** Whether a run of [a] and a run of [b] become one in [a ++ b]. *)
Definition joined (ws : ascii -> bool) (a b : list ascii) : bool :=
  ends_in_run ws false a && starts_in_run ws b.

(** The standard streams an outcome of the loop holds. *)
Definition outcome_world (o : outcome) : world :=
  match o with
  | returned _ w => w
  | running _ w => w
  end.

(** The output streams of [w'] are those of [w] with something written
    after them. *)
Definition world_extends (w w' : world) : Prop :=
  extends (cout w) (cout w') /\ extends (cerr w) (cerr w').

(** Whether the loop over the operands ran to its end. *)
Definition ran_to_end (o : outcome) : Prop :=
  exists (t : FileStatistics) (w : world), o = running t w.
(* ================================================================= *)
(** ** Arithmetic of the counters *)

Lemma wrap_small (x : Z) : 0 <= x <= UINTMAX_MAX -> wrap x = x.
Proof. intros H. unfold wrap. apply Z.mod_small. lia. Qed.

Lemma wrap_range (x : Z) : 0 <= wrap x <= UINTMAX_MAX.
Proof.
  unfold wrap. pose proof (Z.mod_pos_bound x (UINTMAX_MAX + 1)).
  unfold UINTMAX_MAX in *. lia.
Qed.

Lemma wrap_add_l (x y : Z) : wrap (wrap x + y) = wrap (x + y).
Proof. unfold wrap. apply Zplus_mod_idemp_l. Qed.

Lemma bufsize_pos : (0 < bufsize)%nat.
Proof. unfold bufsize. lia. Qed.

(* ================================================================= *)
(** ** The read loop against the whole input *)

Lemma ios_fail_open_on (data : list ascii) : ios_fail (open_on data) = false.
Proof. reflexivity. Qed.

Lemma ios_fail_open_faulty (data : list ascii) :
  ios_fail (open_faulty data) = false.
Proof. reflexivity. Qed.

(** A read that the source can serve in full. *)
Lemma read_full (data : list ascii) (n : nat) :
  (n <= length data)%nat ->
  istream_read (open_on data) n = (firstn n data, open_on (skipn n data)).
Proof.
  intros H. unfold istream_read, open_on; simpl.
  apply Nat.leb_le in H. now rewrite H.
Qed.

(** A read that meets the end of input. *)
Lemma read_short (data : list ascii) (n : nat) :
  (length data < n)%nat ->
  istream_read (open_on data) n = (data, at_eof).
Proof.
  intros H. unfold istream_read, open_on; simpl.
  apply Nat.leb_gt in H. now rewrite H.
Qed.

Lemma read_full_faulty (data : list ascii) (n : nat) :
  (n <= length data)%nat ->
  istream_read (open_faulty data) n
  = (firstn n data, open_faulty (skipn n data)).
Proof.
  intros H. unfold istream_read, open_faulty; simpl.
  apply Nat.leb_le in H. now rewrite H.
Qed.

(** A read that meets the fault of the source. *)
Lemma read_fault (data : list ascii) (n : nat) :
  (length data < n)%nat ->
  istream_read (open_faulty data) n
  = ([], mkIstream [] true false false true).
Proof.
  intros H. unfold istream_read, open_faulty; simpl.
  apply Nat.leb_gt in H. now rewrite H.
Qed.

Section ReadLoop.
Variable loc : Locale.
Variable options : Options.

Lemma classify_with_bytes (b : Z) (st : counter) (c : ascii) :
  classify loc (with_bytes b st) c = with_bytes b (classify loc st c).
Proof.
  unfold classify, with_bytes; simpl.
  repeat match goal with
         | |- context [if ?b then _ else _] => destruct b
         end; reflexivity.
Qed.

Lemma fold_classify_with_bytes (buf : list ascii) :
  forall (b : Z) (st : counter),
    fold_left (classify loc) buf (with_bytes b st)
    = with_bytes b (fold_left (classify loc) buf st).
Proof.
  induction buf as [|c buf IH]; intros b st; simpl; [reflexivity|].
  rewrite classify_with_bytes. apply IH.
Qed.

Lemma count_chunk_eq (st : counter) (buf : list ascii) :
  count_chunk loc options st buf
  = with_bytes (wrap (bytes (stats st) + Z.of_nat (length buf)))
               (classify_all loc options st buf).
Proof.
  unfold count_chunk, classify_all.
  change (mkCounter _ (in_word st) (line_pos st))
    with (with_bytes (wrap (bytes (stats st) + Z.of_nat (length buf))) st).
  destruct (count_lines options || count_max_line_length options
            || count_words options).
  - apply fold_classify_with_bytes.
  - reflexivity.
Qed.

Lemma classify_all_app (st : counter) (a b : list ascii) :
  classify_all loc options (classify_all loc options st a) b
= classify_all loc options st (a ++ b).
Proof.
  unfold classify_all.
  destruct (count_lines options || count_max_line_length options
            || count_words options); [|reflexivity].
  now rewrite fold_left_app.
Qed.

Lemma classify_all_with_bytes (x : Z) (st : counter) (a : list ascii) :
  classify_all loc options (with_bytes x st) a
= with_bytes x (classify_all loc options st a).
Proof.
  unfold classify_all.
  destruct (count_lines options || count_max_line_length options
            || count_words options); [|reflexivity].
  apply fold_classify_with_bytes.
Qed.

Lemma count_chunk_app (st : counter) (a b : list ascii) :
  count_chunk loc options (count_chunk loc options st a) b
  = count_chunk loc options st (a ++ b).
Proof.
  rewrite !count_chunk_eq.
  rewrite classify_all_with_bytes, classify_all_app.
  unfold with_bytes; simpl.
  rewrite wrap_add_l, length_app, Nat2Z.inj_add.
  now rewrite Z.add_assoc.
Qed.

(** On a good stream over [data] that ends cleanly, the chunked loop
    does the work of one chunk holding all of [data], for every read
    size and every [fuel] above the length of [data]. *)
Lemma wc_loop_clean (n : nat) (Hn : (0 < n)%nat) :
  forall (fuel : nat) (data : list ascii) (st : counter),
    (length data < fuel)%nat ->
    wc_loop loc fuel n options st (open_on data)
    = (consume loc options st data, at_eof).
Proof.
  induction fuel as [|fuel IH]; intros data st Hfuel; [lia|].
  cbn [wc_loop]. rewrite ios_fail_open_on.
  destruct (Nat.le_gt_cases n (length data)) as [Hle|Hlt].
  - rewrite read_full by exact Hle.
    destruct data as [|c data]; [simpl in Hle; lia|].
    destruct n as [|n]; [lia|].
    cbn [firstn skipn length] in *.
    rewrite IH by (rewrite length_skipn; lia).
    f_equal.
    pose proof (firstn_skipn n data) as Hsplit.
    destruct (skipn n data) as [|d rest] eqn:Hs; cbn [consume].
    + rewrite app_nil_r in Hsplit. now rewrite Hsplit.
    + rewrite count_chunk_app. cbn [app]. now rewrite Hsplit.
  - rewrite read_short by exact Hlt.
    destruct data as [|c data]; [reflexivity|].
    cbn [consume]. destruct fuel; reflexivity.
Qed.

(** On a good stream whose source faults, the loop leaves the stream
    bad. *)
Lemma wc_loop_faulty (n : nat) (Hn : (0 < n)%nat) :
  forall (fuel : nat) (data : list ascii) (st : counter),
    (length data < fuel)%nat ->
    ios_bad (snd (wc_loop loc fuel n options st (open_faulty data))) = true.
Proof.
  induction fuel as [|fuel IH]; intros data st Hfuel; [lia|].
  cbn [wc_loop]. rewrite ios_fail_open_faulty.
  destruct (Nat.le_gt_cases n (length data)) as [Hle|Hlt].
  - rewrite read_full_faulty by exact Hle.
    destruct data as [|c data]; [simpl in Hle; lia|].
    destruct n as [|n]; [lia|].
    cbn [firstn skipn length] in *.
    apply IH. rewrite length_skipn; lia.
  - rewrite read_fault by exact Hlt. reflexivity.
Qed.

(** Fuel above the length of the source is never used up: on every
    stream, in whatever state, the loop gives the same result for any
    two such amounts. *)
Lemma wc_loop_fuel (n : nat) :
  forall (fuel fuel' : nat) (st : counter) (ins : istream),
    (length (source ins) < fuel)%nat ->
    (length (source ins) < fuel')%nat ->
    wc_loop loc fuel n options st ins = wc_loop loc fuel' n options st ins.
Proof.
  induction fuel as [|fuel IH]; intros fuel' st ins H H'; [lia|].
  destruct fuel' as [|fuel']; [lia|].
  cbn [wc_loop]. destruct (ios_fail ins); [reflexivity|].
  unfold istream_read.
  destruct (negb (ios_good ins)); [reflexivity|].
  destruct (Nat.leb_spec n (length (source ins))) as [Hle|Hlt].
  - destruct (source ins) as [|c data] eqn:Hsrc.
    + now destruct n.
    + destruct n as [|n]; [reflexivity|].
      cbn [firstn skipn length] in *.
      apply IH; cbn [source]; rewrite length_skipn; lia.
  - destruct (faulty ins); [reflexivity|].
    destruct (source ins) as [|c data]; [reflexivity|].
    cbn [length] in *. apply IH; cbn [source length]; lia.
Qed.

(** [wc] on a freshly opened stream that ends cleanly. *)
Lemma wc_clean (data : list ascii) :
  wc loc options (open_on data)
  = (let st := consume loc options init_counter data in
     value (mkStats (lines (stats st)) (words (stats st)) (bytes (stats st))
                    (Z.max (line_pos st) (max_line_length (stats st)))),
     at_eof).
Proof.
  unfold wc. cbn [source open_on].
  rewrite (wc_loop_clean bufsize bufsize_pos) by lia.
  reflexivity.
Qed.

(** [wc] on a freshly opened stream whose source faults. *)
Lemma wc_faulty (data : list ascii) :
  fst (wc loc options (open_faulty data)) = unexpected false.
Proof.
  unfold wc. cbn [source open_faulty].
  pose proof (wc_loop_faulty bufsize bufsize_pos (S (length data)) data
                init_counter (Nat.lt_succ_diag_r _)) as H.
  unfold open_faulty in H.
  destruct (wc_loop _ _ _ _ _ _) as [st ins']. simpl in H.
  now rewrite H.
Qed.

End ReadLoop.

Lemma fields_not_nil (sep : ascii -> bool) (l : list ascii) :
  fields sep l <> [].
Proof.
  destruct l as [|c l]; simpl; [discriminate|].
  destruct (sep c); [discriminate|].
  destruct (fields sep l); discriminate.
Qed.

Lemma fields_head (ws : ascii -> bool) (l : list ascii) :
  exists f fs, fields ws l = f :: fs /\ nonempty f = starts_in_run ws l.
Proof.
  destruct l as [|c l]; simpl.
  - now exists [], [].
  - destruct (ws c); simpl.
    + now exists [], (fields ws l).
    + destruct (fields ws l) as [|f fs] eqn:E.
      * now exists [c], [].
      * now exists (c :: f), fs.
Qed.

(** The pieces hold no separator, and put together they are the input
    without its separators. *)
Lemma fields_no_separator (sep : ascii -> bool) (l : list ascii) :
  Forall (Forall (fun c => sep c = false)) (fields sep l).
Proof.
  induction l as [|c l IH]; cbn [fields].
  - repeat constructor.
  - destruct (sep c) eqn:Hc; [constructor; [constructor|exact IH]|].
    destruct (fields sep l) as [|f fs]; [repeat constructor; exact Hc|].
    inversion IH as [|? ? Hf Hfs]; subst.
    constructor; [constructor; [exact Hc|exact Hf]|exact Hfs].
Qed.

Lemma fields_concat (sep : ascii -> bool) (l : list ascii) :
  concat (fields sep l) = filter (fun c => negb (sep c)) l.
Proof.
  induction l as [|c l IH]; cbn [fields filter]; [reflexivity|].
  destruct (sep c); cbn [negb concat app]; [exact IH|].
  destruct (fields sep l) as [|f fs]; cbn [concat app] in *; now rewrite <- IH.
Qed.

(** There is one more piece than there are separators. *)
Lemma fields_length (sep : ascii -> bool) (l : list ascii) :
  length (fields sep l) = S (length (filter sep l)).
Proof.
  induction l as [|c l IH]; cbn [fields filter]; [reflexivity|].
  destruct (sep c); cbn [length]; [now rewrite IH|].
  destruct (fields sep l) as [|f fs]; cbn [length] in *; [discriminate|exact IH].
Qed.

Lemma count_runs_cons (ws : ascii -> bool) (c : ascii) (l : list ascii) :
  count_runs ws (c :: l)
  = ((if negb (ws c) && negb (starts_in_run ws l) then 1 else 0)
     + count_runs ws l)%nat.
Proof.
  unfold count_runs, maximal_runs. cbn [fields].
  destruct (fields_head ws l) as (f & fs & E & Hf).
  rewrite E. destruct (ws c); simpl; [reflexivity|].
  rewrite <- Hf. destruct f; reflexivity.
Qed.

Lemma run_starts_count_runs (ws : ascii -> bool) (l : list ascii) :
  forall iw : bool,
    (run_starts ws iw l + (if iw && starts_in_run ws l then 1 else 0)
     = count_runs ws l)%nat.
Proof.
  induction l as [|c l IH]; intros iw.
  - simpl. now destruct iw.
  - rewrite count_runs_cons. cbn [run_starts starts_in_run].
    specialize (IH (negb (ws c))).
    destruct iw, (ws c), (starts_in_run ws l); simpl in *; lia.
Qed.

(** The runs of an input are as many as its run starts. *)
Lemma run_starts_false (ws : ascii -> bool) (l : list ascii) :
  run_starts ws false l = count_runs ws l.
Proof.
  pose proof (run_starts_count_runs ws l false) as H. simpl in H. lia.
Qed.

Lemma run_starts_le (ws : ascii -> bool) (l : list ascii) :
  forall iw, (run_starts ws iw l <= length l)%nat.
Proof.
  induction l as [|c l IH]; intros iw; simpl; [lia|].
  specialize (IH (negb (ws c))).
  destruct (negb iw && negb (ws c)); lia.
Qed.

Lemma count_byte_le (b : ascii) (l : list ascii) :
  (count_byte b l <= length l)%nat.
Proof. unfold count_byte. apply filter_length_le. Qed.

(* ================================================================= *)
(** ** The statistics of a whole input *)

Section Statistics.
Variable loc : Locale.
Variable options : Options.

Lemma consume_init (data : list ascii) :
  consume loc options init_counter data
  = with_bytes (wrap (Z.of_nat (length data)))
               (classify_all loc options init_counter data).
Proof.
  destruct data as [|c data].
  - unfold classify_all. cbn [consume fold_left].
    destruct (count_lines options || count_max_line_length options
              || count_words options); reflexivity.
  - cbn [consume]. rewrite count_chunk_eq. reflexivity.
Qed.

(** [wc] on a fresh stream over [data] never fails, leaves the stream at
    end of input, and reports the byte count together with what the
    classification of all of [data] in one go finds. *)
Lemma wc_result (data : list ascii) :
  wc loc options (open_on data)
  = (let st := classify_all loc options init_counter data in
     value (mkStats (lines (stats st)) (words (stats st))
                    (wrap (Z.of_nat (length data)))
                    (Z.max (line_pos st) (max_line_length (stats st)))),
     at_eof).
Proof. rewrite wc_clean, consume_init. reflexivity. Qed.

End Statistics.

(* ================================================================= *)
(** ** Lines and words *)

Section LinesWords.
Variable loc : Locale.

Lemma classify_lines (st : counter) (c : ascii) :
  lines (stats (classify loc st c))
  = if (c =? "010")%char then wrap (lines (stats st) + 1)
    else lines (stats st).
Proof.
  unfold classify.
  repeat match goal with
         | |- context [if ?b then _ else _] => destruct b
         end; reflexivity.
Qed.

Lemma fold_classify_lines (l : list ascii) :
  forall st : counter,
    wrap (lines (stats st)) = lines (stats st) ->
    lines (stats (fold_left (classify loc) l st))
    = wrap (lines (stats st) + Z.of_nat (count_byte "010" l)).
Proof.
  unfold count_byte.
  induction l as [|c l IH]; intros st Hst; cbn [fold_left filter].
  - cbn [length]. now rewrite Z.add_0_r.
  - pose proof (classify_lines st c) as Hc.
    rewrite Ascii.eqb_sym in Hc.
    destruct ("010" =? c)%char.
    + rewrite IH by (rewrite Hc; unfold wrap; apply Z.mod_mod; discriminate).
      rewrite Hc, wrap_add_l. cbn [length]. f_equal. lia.
    + rewrite IH by (now rewrite Hc). now rewrite Hc.
Qed.

Lemma classify_in_word (st : counter) (c : ascii) :
  in_word (classify loc st c) = negb (separator loc c).
Proof.
  unfold classify, separator, switch_case.
  destruct (c =? "010")%char; [reflexivity|].
  destruct (c =? "013")%char; [reflexivity|].
  destruct (c =? "012")%char; [reflexivity|].
  destruct (c =? "009")%char; [reflexivity|].
  destruct (c =? " ")%char; [reflexivity|].
  destruct (c =? "011")%char; reflexivity.
Qed.

Lemma classify_words (st : counter) (c : ascii) :
  wrap (words (stats st)) = words (stats st) ->
  words (stats (classify loc st c))
  = if negb (in_word st) && negb (separator loc c)
    then wrap (words (stats st) + 1)
    else words (stats st).
Proof.
  intros Hst. unfold classify, separator, switch_case.
  destruct (c =? "010")%char; [now rewrite andb_false_r|].
  destruct (c =? "013")%char; [now rewrite andb_false_r|].
  destruct (c =? "012")%char; [now rewrite andb_false_r|].
  destruct (c =? "009")%char; [now rewrite andb_false_r|].
  destruct (c =? " ")%char; [now rewrite andb_false_r|].
  destruct (c =? "011")%char; [now rewrite andb_false_r|].
  cbn [orb stats words].
  destruct (in_word st), (isspace loc c); cbn [negb andb b2z];
    rewrite ?Z.add_0_r; auto.
Qed.

Lemma fold_classify_words (l : list ascii) :
  forall st : counter,
    wrap (words (stats st)) = words (stats st) ->
    words (stats (fold_left (classify loc) l st))
    = wrap (words (stats st)
            + Z.of_nat (run_starts (separator loc) (in_word st) l)).
Proof.
  induction l as [|c l IH]; intros st Hst; cbn [fold_left run_starts].
  - now rewrite Z.add_0_r.
  - pose proof (classify_words st c Hst) as Hc.
    rewrite IH, classify_in_word.
    + destruct (negb (in_word st) && negb (separator loc c));
        rewrite Hc; [rewrite wrap_add_l|]; f_equal; lia.
    + destruct (negb (in_word st) && negb (separator loc c));
        rewrite Hc; [unfold wrap; apply Z.mod_mod; discriminate | exact Hst].
Qed.

End LinesWords.

(** In the "C" locale the separators are the ASCII whitespace bytes. *)
Lemma separator_c_locale (c : ascii) :
  separator c_locale c = ascii_whitespace c.
Proof.
  destruct c as [[] [] [] [] [] [] [] []]; vm_compute; reflexivity.
Qed.

Lemma fields_ext (f g : ascii -> bool) (l : list ascii) :
  (forall c, f c = g c) -> fields f l = fields g l.
Proof.
  intros Hfg. induction l as [|c l IH]; [reflexivity|].
  cbn [fields]. now rewrite IH, Hfg.
Qed.

Section Totals.
Variable loc : Locale.
Variable options : Options.

Lemma classify_all_on (data : list ascii) :
  count_lines options || count_max_line_length options
  || count_words options = true ->
  classify_all loc options init_counter data
  = fold_left (classify loc) data init_counter.
Proof. intros H. unfold classify_all. now rewrite H. Qed.

(** The line counter, for every input: the newline bytes, modulo 2^64. *)
Lemma wc_lines_wrap (data : list ascii) :
  count_lines options = true ->
  exists s : FileStatistics,
    wc loc options (open_on data) = (value s, at_eof)
    /\ lines s = wrap (Z.of_nat (count_byte "010" data)).
Proof.
  intros H. rewrite wc_result. eexists; split; [reflexivity|].
  cbn [lines]. rewrite classify_all_on by (now rewrite H).
  now rewrite fold_classify_lines.
Qed.

(** The word counter, for every input: the runs between separators,
    modulo 2^64. *)
Lemma wc_words_wrap (data : list ascii) :
  count_words options = true ->
  exists s : FileStatistics,
    wc loc options (open_on data) = (value s, at_eof)
    /\ words s = wrap (Z.of_nat (count_runs (separator loc) data)).
Proof.
  intros H. rewrite wc_result. eexists; split; [reflexivity|].
  cbn [words]. rewrite classify_all_on by (rewrite H; apply orb_true_r).
  rewrite fold_classify_words by reflexivity.
  cbn [init_counter in_word stats words zero_stats].
  now rewrite run_starts_false.
Qed.

End Totals.

(* ================================================================= *)
(** ** The counters of one input *)

(** C1: in a locale whose whitespace class is the ASCII one (0x09-0x0D
    and 0x20), the "C" locale among them, reading any input with word
    counting requested succeeds and reports as [words] the number of
    maximal runs of non-whitespace bytes of the input, this number being
    one the counter can hold. *)
Theorem words_are_maximal_runs (loc : Locale) (options : Options)
        (data : list ascii) :
  (forall c : ascii, isspace loc c = ascii_whitespace c) ->
  count_words options = true ->
  Z.of_nat (count_runs ascii_whitespace data) <= UINTMAX_MAX ->
  exists s : FileStatistics,
    wc loc options (open_on data) = (value s, at_eof)
    /\ words s = Z.of_nat (count_runs ascii_whitespace data).
Proof.
  intros Hloc Hw Hmax.
  destruct (wc_words_wrap loc options data Hw) as (s & Hs & Hwords).
  exists s; split; [exact Hs|].
  rewrite Hwords. unfold count_runs, maximal_runs in *.
  assert (E : fields (separator loc) data = fields ascii_whitespace data).
  { apply fields_ext. intros c. unfold separator. rewrite Hloc.
    apply separator_c_locale. }
  rewrite E. apply wrap_small. lia.
Qed.

(** The input "  hello   world  " has two words. *)
Lemma words_are_maximal_runs_witness :
  exists s : FileStatistics,
    wc c_locale (mkOptions false false true false)
       (open_on (bytes_of "  hello   world  ")) = (value s, at_eof)
    /\ words s = 2.
Proof.
  exact (words_are_maximal_runs c_locale (mkOptions false false true false)
           (bytes_of "  hello   world  ") (fun c => eq_refl) eq_refl
           ltac:(vm_compute; discriminate)).
Defined.

(** C2: reading any input with line counting requested succeeds and
    reports as [lines] the number of 0x0A bytes of the input, wherever
    they stand, in every locale; no other byte counts. *)
Theorem lines_are_newline_bytes (loc : Locale) (options : Options)
        (data : list ascii) :
  count_lines options = true ->
  Z.of_nat (count_byte "010" data) <= UINTMAX_MAX ->
  exists s : FileStatistics,
    wc loc options (open_on data) = (value s, at_eof)
    /\ lines s = Z.of_nat (count_byte "010" data).
Proof.
  intros Hl Hmax.
  destruct (wc_lines_wrap loc options data Hl) as (s & Hs & Hlines).
  exists s; split; [exact Hs|].
  rewrite Hlines. apply wrap_small. lia.
Qed.

(** Two newlines, the second one not last, among a carriage return and
    a form feed. *)
Lemma lines_are_newline_bytes_witness :
  exists s : FileStatistics,
    wc c_locale (mkOptions false true false false)
       (open_on ["a"; "010"; "013"; "012"; "010"; "b"]%char)
    = (value s, at_eof)
    /\ lines s = 2.
Proof.
  exact (lines_are_newline_bytes c_locale (mkOptions false true false false)
           ["a"; "010"; "013"; "012"; "010"; "b"]%char eq_refl
           ltac:(vm_compute; discriminate)).
Defined.

(** C3: reading any input succeeds, whatever the flags and the locale,
    and reports as [bytes] the length of the input, this length being
    one the counter can hold. *)
Theorem bytes_are_input_length (loc : Locale) (options : Options)
        (data : list ascii) :
  Z.of_nat (length data) <= UINTMAX_MAX ->
  exists s : FileStatistics,
    wc loc options (open_on data) = (value s, at_eof)
    /\ bytes s = Z.of_nat (length data).
Proof.
  intros Hmax. rewrite wc_result. eexists; split; [reflexivity|].
  cbn [bytes]. apply wrap_small. lia.
Qed.

(** Five bytes of mixed classes, with only the line counter requested. *)
Lemma bytes_are_input_length_witness :
  exists s : FileStatistics,
    wc c_locale (mkOptions false true false false)
       (open_on ["a"; "009"; "200"; "010"; " "]%char)
    = (value s, at_eof)
    /\ bytes s = 5.
Proof.
  exact (bytes_are_input_length c_locale (mkOptions false true false false)
           ["a"; "009"; "200"; "010"; " "]%char
           ltac:(vm_compute; discriminate)).
Defined.

(* ================================================================= *)
(** ** The display column *)

Section Column.
Variable loc : Locale.

(** A tab moves the column to the next multiple of 8. *)
Lemma classify_tab (st : counter) :
  classify loc st "009"
  = mkCounter (stats st) false
      (wrap (line_pos st + (tab_width - line_pos st mod tab_width))).
Proof. reflexivity. Qed.

(** Carriage return and form feed fold the column into the maximum and
    reset it; newline does so after counting a line. *)
Lemma classify_line_break (st : counter) (c : ascii) :
  line_break c = true ->
  max_line_length (stats (classify loc st c))
  = Z.max (line_pos st) (max_line_length (stats st))
  /\ line_pos (classify loc st c) = 0
  /\ in_word (classify loc st c) = false.
Proof.
  unfold line_break, classify. intros H.
  destruct (c =? "010")%char; [now repeat split|].
  destruct (c =? "013")%char; [now repeat split|].
  destruct (c =? "012")%char; [now repeat split|discriminate].
Qed.

Lemma classify_no_break_max (st : counter) (c : ascii) :
  line_break c = false ->
  max_line_length (stats (classify loc st c)) = max_line_length (stats st).
Proof.
  unfold line_break, classify. intros H.
  destruct (c =? "010")%char; [discriminate|].
  destruct (c =? "013")%char; [discriminate|].
  destruct (c =? "012")%char; [discriminate|].
  cbn [orb].
  repeat match goal with
         | |- context [if ?b then _ else _] => destruct b
         end; reflexivity.
Qed.

End Column.

Section Widest.
Variable loc : Locale.

Lemma advance_bounds (col : Z) (c : ascii) :
  0 <= col -> col <= advance loc col c <= col + 8.
Proof.
  intros H. unfold advance.
  pose proof (Z.mod_pos_bound col 8 ltac:(lia)).
  repeat match goal with
         | |- context [if ?b then _ else _] => destruct b
         end; lia.
Qed.

(** A byte that ends no line moves the column as [advance] says, as
    long as the counter can hold the result. *)
Lemma classify_no_break_column (st : counter) (c : ascii) :
  line_break c = false ->
  0 <= line_pos st -> line_pos st + 8 <= UINTMAX_MAX ->
  line_pos (classify loc st c) = advance loc (line_pos st) c.
Proof.
  unfold line_break, classify, advance. intros H H0 Hmax.
  destruct (c =? "010")%char; [discriminate|].
  destruct (c =? "013")%char; [discriminate|].
  destruct (c =? "012")%char; [discriminate|].
  cbn [orb].
  pose proof (Z.mod_pos_bound (line_pos st) 8 ltac:(lia)).
  destruct (c =? "009")%char.
  { cbn [line_pos]. unfold tab_width. apply wrap_small. lia. }
  destruct (c =? " ")%char.
  { cbn [line_pos]. apply wrap_small. lia. }
  destruct (c =? "011")%char; [reflexivity|].
  cbn [line_pos].
  destruct (isprint loc c); cbn [b2z]; rewrite ?Z.add_0_r;
    apply wrap_small; lia.
Qed.

Lemma max_list_nonneg (l : list Z) : 0 <= max_list l.
Proof. induction l; simpl; lia. Qed.

(** The column and the maximum after a buffer, against the lines of the
    buffer. *)
Lemma fold_classify_widest (l : list ascii) :
  forall st : counter,
    0 <= line_pos st ->
    line_pos st + 8 * Z.of_nat (length l) <= UINTMAX_MAX ->
    let st' := fold_left (classify loc) l st in
    Z.max (line_pos st') (max_line_length (stats st'))
    = Z.max (max_line_length (stats st))
            (max_list (widths_from loc (line_pos st) (fields line_break l))).
Proof.
  induction l as [|c l IH]; intros st H0 Hmax.
  - simpl. lia.
  - cbn [fold_left fields length] in *. cbv zeta in IH.
    destruct (line_break c) eqn:Hc.
    + destruct (classify_line_break loc st c Hc) as (Hm & Hp & _).
      rewrite IH by (rewrite Hp; lia).
      rewrite Hm, Hp. cbn [widths_from width_from fold_left].
      destruct (fields_head line_break l) as (f & fs & E & _).
      rewrite E. cbn [widths_from map max_list fold_right].
      fold (display_width loc f).
      fold (max_list (map (display_width loc) fs)). lia.
    + pose proof (advance_bounds (line_pos st) c H0) as Hadv.
      assert (Hp : line_pos (classify loc st c)
                   = advance loc (line_pos st) c)
        by (apply classify_no_break_column; [exact Hc | lia | lia]).
      rewrite IH by (rewrite Hp; lia).
      rewrite Hp, (classify_no_break_max loc st c Hc).
      destruct (fields_head line_break l) as (f & fs & E & _).
      rewrite E. reflexivity.
Qed.

End Widest.

(** C4: in every locale, reading any input with the maximum line length
    requested succeeds and reports the width of the widest display line
    of the input, lines being ended by newline, carriage return, form
    feed or the end of the input, and the width of a line being the
    column reached from 0 when a tab moves to the next multiple of 8
    ([col + (8 - col mod 8)]), a space takes one column, a vertical tab
    none and any other byte one column if it is printable; the input is
    short enough for the column to fit the counter.  In the "C" locale
    the empty input has width 0, "abc" 3, "abc" and a newline 3, and
    "a", tab, "b" 9. *)
Theorem max_line_length_is_widest_line (loc : Locale) (options : Options)
        (data : list ascii) :
  count_max_line_length options = true ->
  8 * Z.of_nat (length data) <= UINTMAX_MAX ->
  exists s : FileStatistics,
    wc loc options (open_on data) = (value s, at_eof)
    /\ max_line_length s = widest_line loc data.
Proof.
  intros HL Hmax. rewrite wc_result. eexists; split; [reflexivity|].
  cbn [max_line_length].
  rewrite classify_all_on by (rewrite HL; now rewrite orb_true_r).
  pose proof (fold_classify_widest loc data init_counter) as H.
  cbv zeta in H. rewrite H by (cbn [init_counter line_pos]; lia).
  cbn [init_counter line_pos stats zero_stats max_line_length].
  unfold widest_line.
  destruct (fields_head line_break data) as (f & fs & E & _).
  rewrite E. cbn [widths_from map].
  change (width_from loc 0 f) with (display_width loc f).
  pose proof (max_list_nonneg
                (display_width loc f :: map (display_width loc) fs)).
  lia.
Qed.

(** The empty input, "abc", "abc" with a newline, and "a", tab, "b". *)
Lemma max_line_length_is_widest_line_witness :
  (exists s, wc c_locale (mkOptions false false false true) (open_on [])
             = (value s, at_eof) /\ max_line_length s = 0)
  /\ (exists s, wc c_locale (mkOptions false false false true)
                   (open_on ["a"; "b"; "c"]%char)
                = (value s, at_eof) /\ max_line_length s = 3)
  /\ (exists s, wc c_locale (mkOptions false false false true)
                   (open_on ["a"; "b"; "c"; "010"]%char)
                = (value s, at_eof) /\ max_line_length s = 3)
  /\ (exists s, wc c_locale (mkOptions false false false true)
                   (open_on ["a"; "009"; "b"]%char)
                = (value s, at_eof) /\ max_line_length s = 9).
Proof.
  repeat split.
  - exact (max_line_length_is_widest_line c_locale
             (mkOptions false false false true) [] eq_refl ltac:(vm_compute; discriminate)).
  - exact (max_line_length_is_widest_line c_locale
             (mkOptions false false false true)
             ["a"; "b"; "c"]%char eq_refl ltac:(vm_compute; discriminate)).
  - exact (max_line_length_is_widest_line c_locale
             (mkOptions false false false true)
             ["a"; "b"; "c"; "010"]%char eq_refl
             ltac:(vm_compute; discriminate)).
  - exact (max_line_length_is_widest_line c_locale
             (mkOptions false false false true)
             ["a"; "009"; "b"]%char eq_refl ltac:(vm_compute; discriminate)).
Defined.

(* ================================================================= *)
(** ** Checked addition *)

Lemma chkd_add_spec (res a b : Z) :
  representable a -> representable b ->
  chkd_add res a b
  = if a + b <=? UINTMAX_MAX then (true, a + b) else (false, res).
Proof.
  unfold representable, chkd_add. intros Ha Hb.
  destruct (Z.leb_spec (a + b) UINTMAX_MAX) as [Hle|Hgt].
  - rewrite wrap_small by lia.
    destruct (Z.ltb_spec (a + b) a); [lia|reflexivity].
  - assert (E : wrap (a + b) = a + b - (UINTMAX_MAX + 1)).
    { unfold wrap.
      replace (a + b) with ((a + b - (UINTMAX_MAX + 1)) + 1 * (UINTMAX_MAX + 1))
        at 1 by lia.
      rewrite Z_mod_plus_full. apply Z.mod_small.
      unfold UINTMAX_MAX in *. lia. }
    rewrite E.
    destruct (Z.ltb_spec (a + b - (UINTMAX_MAX + 1)) a); [reflexivity|].
    unfold UINTMAX_MAX in *. lia.
Qed.

(* ================================================================= *)
(** ** The statistics of a source are representable *)

Section Representable.
Variable loc : Locale.
Variable options : Options.

Lemma representable_wrap (x : Z) : representable (wrap x).
Proof. apply wrap_range. Qed.

Lemma classify_representable (st : counter) (c : ascii) :
  counter_representable st -> counter_representable (classify loc st c).
Proof.
  unfold counter_representable, stats_representable, representable.
  intros ((Hl & Hw & Hb & Hm) & Hp).
  assert (Hpos : 0 <= UINTMAX_MAX) by (unfold UINTMAX_MAX; lia).
  unfold classify.
  repeat match goal with
         | |- context [if ?b then _ else _] => destruct b
         end; cbn [stats lines words bytes max_line_length line_pos];
    repeat match goal with
           | |- context [wrap ?x] =>
               pose proof (wrap_range x); generalize dependent (wrap x);
               intros
           end; lia.
Qed.

Lemma fold_classify_representable (buf : list ascii) :
  forall st, counter_representable st ->
             counter_representable (fold_left (classify loc) buf st).
Proof.
  induction buf as [|c buf IH]; intros st H; [exact H|].
  simpl. apply IH, classify_representable, H.
Qed.

Lemma count_chunk_representable (st : counter) (buf : list ascii) :
  counter_representable st ->
  counter_representable (count_chunk loc options st buf).
Proof.
  intros H. rewrite count_chunk_eq.
  assert (H' : counter_representable (classify_all loc options st buf)).
  { unfold classify_all.
    destruct (count_lines options || count_max_line_length options
              || count_words options);
      [now apply fold_classify_representable | exact H]. }
  destruct H' as ((Hl & Hw & Hb & Hm) & Hp).
  unfold with_bytes, counter_representable, stats_representable; cbn.
  repeat split; try apply representable_wrap;
    first [apply Hl | apply Hw | apply Hm | apply Hp].
Qed.

Lemma wc_loop_representable (n fuel : nat) :
  forall (st : counter) (ins : istream),
    counter_representable st ->
    counter_representable (fst (wc_loop loc fuel n options st ins)).
Proof.
  induction fuel as [|fuel IH]; intros st ins H; [exact H|].
  cbn [wc_loop]. destruct (ios_fail ins); [exact H|].
  destruct (istream_read ins n) as [buf ins'].
  destruct buf as [|c buf]; [exact H|].
  apply IH, count_chunk_representable, H.
Qed.

(** Whatever the stream, the statistics [wc] returns are values the
    counters can hold. *)
Lemma wc_representable (ins ins' : istream) (s : FileStatistics) :
  wc loc options ins = (value s, ins') -> stats_representable s.
Proof.
  unfold wc.
  pose proof (wc_loop_representable bufsize (S (length (source ins)))
                init_counter ins) as H.
  destruct (wc_loop _ _ _ _ _ _) as [st i'].
  assert (H0 : counter_representable init_counter).
  { unfold counter_representable, stats_representable, representable,
      UINTMAX_MAX; cbn. lia. }
  specialize (H H0). cbn [fst] in H.
  destruct (ios_bad i'); [discriminate|].
  intros E. injection E as <- <-.
  destruct H as ((Hl & Hw & Hb & Hm) & Hp).
  unfold stats_representable; cbn.
  repeat split; try apply Hl; try apply Hw; try apply Hb;
    unfold representable in *; lia.
Qed.

End Representable.

(* ================================================================= *)
(** ** One source in the driver *)

Lemma cout_store (w : world) (r : istream_ref) (ins : istream) :
  cout (store w r ins) = cout w.
Proof. now destruct r. Qed.

Lemma cerr_store (w : world) (r : istream_ref) (ins : istream) :
  cerr (store w r ins) = cerr w.
Proof. now destruct r. Qed.

Section Driving.
Variable loc : Locale.
Variable env : environment.
Variable options : Options.
Variable nfiles : Z.

(** The turn of the loop on an operand that is a stream to count. *)
Lemma main_step_stream (arg : string) (r : istream_ref)
      (total_stats : FileStatistics) (w : world) :
  resolve env arg = op_stream r ->
  main_step loc env options nfiles arg total_stats w
  = (let '(status, t, w') :=
       wc_file loc env options r arg nfiles total_stats w in
     if status =? EXIT_FAILURE then returned EXIT_FAILURE w'
     else running t w').
Proof.
  unfold resolve, main_step.
  destruct (is_directory env arg) as [[|]|report]; try discriminate.
  destruct (is_regular_file env arg) as [[|]|report]; try discriminate.
  - now intros [= <-].
  - destruct (arg =? "-")%string; [now intros [= <-]|discriminate].
Qed.

(** The loop over a list of operands cut in two. *)
Lemma main_loop_app (pre rest : list string) :
  forall (total_stats : FileStatistics) (w : world),
    main_loop loc env options nfiles (pre ++ rest) total_stats w
    = match main_loop loc env options nfiles pre total_stats w with
      | returned status w' => returned status w'
      | running t w' => main_loop loc env options nfiles rest t w'
      end.
Proof.
  induction pre as [|arg pre IH]; intros total_stats w; [reflexivity|].
  cbn [app main_loop].
  destruct (main_step loc env options nfiles arg total_stats w);
    [reflexivity|apply IH].
Qed.

(** [wc_file] on a source that was read, when a total is kept: the
    three checked additions in turn. *)
Lemma wc_file_counts (r : istream_ref) (file : string)
      (total_stats s : FileStatistics) (w : world) (ins' : istream) :
  wc loc options (deref w r) = (value s, ins') ->
  1 < nfiles ->
  stats_representable total_stats ->
  wc_file loc env options r file nfiles total_stats w
  = let w1 := put_cout (store w r ins')
                       (write_counts loc (cout w) options s (Some file)) in
    let m := Z.max (max_line_length s) (max_line_length total_stats) in
    if negb (lines total_stats + lines s <=? UINTMAX_MAX) then
      (EXIT_FAILURE,
       mkStats (lines total_stats) (words total_stats) (bytes total_stats) m,
       put_cerr w1 (cerr w ++ "Error: integer overflow in total lines."
                           ++ newline)%string)
    else if negb (words total_stats + words s <=? UINTMAX_MAX) then
      (EXIT_FAILURE,
       mkStats (lines total_stats + lines s) (words total_stats)
               (bytes total_stats) m,
       put_cerr w1 (cerr w ++ "Error: integer overflow in total words."
                           ++ newline)%string)
    else if negb (bytes total_stats + bytes s <=? UINTMAX_MAX) then
      (EXIT_FAILURE,
       mkStats (lines total_stats + lines s) (words total_stats + words s)
               (bytes total_stats) m,
       put_cerr w1 (cerr w ++ "Error: integer overflow in total bytes."
                           ++ newline)%string)
    else
      (EXIT_SUCCESS,
       mkStats (lines total_stats + lines s) (words total_stats + words s)
               (bytes total_stats + bytes s) m,
       w1).
Proof.
  intros Hwc Hn (Hl & Hw & Hb & Hm).
  destruct (wc_representable loc options _ _ _ Hwc) as (Hl' & Hw' & Hb' & Hm').
  unfold wc_file. rewrite Hwc.
  apply Z.ltb_lt in Hn. rewrite Hn.
  cbn [lines words bytes max_line_length].
  rewrite (chkd_add_spec _ _ _ Hl Hl').
  rewrite (chkd_add_spec _ _ _ Hw Hw').
  rewrite (chkd_add_spec _ _ _ Hb Hb').
  cbv zeta. unfold put_cout, put_cerr.
  cbn [cin cout cerr]. rewrite !cout_store, !cerr_store.
  destruct (lines total_stats + lines s <=? UINTMAX_MAX); [|reflexivity].
  destruct (words total_stats + words s <=? UINTMAX_MAX); [|reflexivity].
  destruct (bytes total_stats + bytes s <=? UINTMAX_MAX); reflexivity.
Qed.

End Driving.

Section Totalling.
Variable loc : Locale.
Variable env : environment.
Variable options : Options.
Variable nfiles : Z.

Lemma wc_file_representable (r : istream_ref) (file : string)
      (total_stats : FileStatistics) (w : world) :
  stats_representable total_stats ->
  fst (fst (wc_file loc env options r file nfiles total_stats w))
  <> EXIT_FAILURE ->
  stats_representable
    (snd (fst (wc_file loc env options r file nfiles total_stats w))).
Proof.
  intros Ht.
  destruct (wc loc options (deref w r)) as [[s|e] ins'] eqn:Hwc.
  - destruct (Z.ltb_spec 1 nfiles) as [Hn|Hn].
    + rewrite (wc_file_counts loc env options nfiles r file total_stats s w
                 ins' Hwc Hn Ht).
      destruct (wc_representable loc options _ _ _ Hwc)
        as (Hl' & Hw' & Hb' & Hm').
      destruct Ht as (Hl & Hw & Hb & Hm). cbv zeta.
      destruct (Z.leb_spec (lines total_stats + lines s) UINTMAX_MAX);
        [|intros Hc; now elim Hc].
      destruct (Z.leb_spec (words total_stats + words s) UINTMAX_MAX);
        [|intros Hc; now elim Hc].
      destruct (Z.leb_spec (bytes total_stats + bytes s) UINTMAX_MAX);
        [|intros Hc; now elim Hc].
      intros _. cbn.
      unfold stats_representable, representable in *; cbn. lia.
    + unfold wc_file. rewrite Hwc.
      apply Z.ltb_ge in Hn. rewrite Hn. intros _. exact Ht.
  - unfold wc_file. rewrite Hwc. intros _. exact Ht.
Qed.

Lemma main_step_representable (arg : string) (total_stats t : FileStatistics)
      (w w' : world) :
  stats_representable total_stats ->
  main_step loc env options nfiles arg total_stats w = running t w' ->
  stats_representable t.
Proof.
  intros Ht.
  destruct (resolve env arg) as [|r| |report] eqn:Hr.
  - unfold resolve in Hr. unfold main_step.
    destruct (is_directory env arg) as [[|]|]; try discriminate;
      [now intros [= <- _]|].
    destruct (is_regular_file env arg) as [[|]|]; try discriminate.
    destruct (arg =? "-")%string; discriminate.
  - rewrite (main_step_stream loc env options nfiles arg r total_stats w Hr).
    pose proof (wc_file_representable r arg total_stats w Ht) as H.
    destruct (wc_file loc env options r arg nfiles total_stats w)
      as [[status t0] w0]. cbn [fst snd] in H.
    destruct (Z.eqb_spec status EXIT_FAILURE) as [|Hs]; [discriminate|].
    intros [= <- _]. exact (H Hs).
  - unfold resolve in Hr. unfold main_step.
    destruct (is_directory env arg) as [[|]|]; try discriminate.
    destruct (is_regular_file env arg) as [[|]|]; try discriminate.
    destruct (arg =? "-")%string; [discriminate|]. now intros [= <- _].
  - unfold resolve in Hr. unfold main_step, terminate.
    destruct (is_directory env arg) as [[|]|]; try discriminate.
    destruct (is_regular_file env arg) as [[|]|]; try discriminate.
    destruct (arg =? "-")%string; discriminate.
Qed.

(** The running total stays within what the counters can hold. *)
Lemma main_loop_representable (args : list string) :
  forall (total_stats t : FileStatistics) (w w' : world),
    stats_representable total_stats ->
    main_loop loc env options nfiles args total_stats w = running t w' ->
    stats_representable t.
Proof.
  induction args as [|arg args IH]; intros total_stats t w w' Ht.
  - now intros [= <- _].
  - cbn [main_loop].
    destruct (main_step loc env options nfiles arg total_stats w)
      as [status w1|t1 w1] eqn:Hstep; [discriminate|].
    apply IH. exact (main_step_representable arg _ _ _ _ Ht Hstep).
Qed.

End Totalling.

Lemma zero_stats_representable : stats_representable zero_stats.
Proof.
  unfold stats_representable, representable, UINTMAX_MAX; cbn. lia.
Qed.

(* ================================================================= *)
(** ** The running total *)

(** C5, counterexample: with two sources whose widest lines are 3 and 2
    columns wide, the total's maximum line length is not what the
    checked addition of the two gives. *)
Lemma total_max_line_length_is_not_a_sum :
  let options := mkOptions false false false true in
  let env := env_of [] [("a", bytes_of "abc"); ("b", bytes_of "ab")]%string in
  exists sa sb : FileStatistics,
    fst (wc c_locale options (open_on (bytes_of "abc"))) = value sa
    /\ fst (wc c_locale options (open_on (bytes_of "ab"))) = value sb
    /\ fst (chkd_add 0 (max_line_length sa) (max_line_length sb)) = true
    /\ match main_loop c_locale env options 2 ["a"; "b"]%string zero_stats
                       (start []) with
       | running t _ =>
           max_line_length t
           <> snd (chkd_add 0 (max_line_length sa) (max_line_length sb))
       | returned _ _ => False
       end.
Proof.
  exists (mkStats 0 1 3 3), (mkStats 0 1 2 2).
  repeat split; try (vm_compute; reflexivity).
  vm_compute. discriminate.
Qed.

(** C5, amended: when several operands were given and a source was
    read, its lines, words and bytes are each added into the running
    total, exactly, whenever the sum is one the counter can hold; its
    maximum line length is folded in by taking the maximum of the two. *)
Theorem total_adds_counts_and_keeps_widest
        (loc : Locale) (env : environment) (options : Options) (nfiles : Z)
        (r : istream_ref) (file : string) (total_stats s : FileStatistics)
        (w : world) (ins' : istream) :
  1 < nfiles ->
  stats_representable total_stats ->
  wc loc options (deref w r) = (value s, ins') ->
  lines total_stats + lines s <= UINTMAX_MAX ->
  words total_stats + words s <= UINTMAX_MAX ->
  bytes total_stats + bytes s <= UINTMAX_MAX ->
  wc_file loc env options r file nfiles total_stats w
  = (EXIT_SUCCESS,
     mkStats (lines total_stats + lines s) (words total_stats + words s)
             (bytes total_stats + bytes s)
             (Z.max (max_line_length s) (max_line_length total_stats)),
     put_cout (store w r ins')
              (write_counts loc (cout w) options s (Some file))).
Proof.
  intros Hn Ht Hwc Hl Hw Hb.
  rewrite (wc_file_counts loc env options nfiles r file total_stats s w ins'
             Hwc Hn Ht).
  cbv zeta.
  apply Z.leb_le in Hl, Hw, Hb. now rewrite Hl, Hw, Hb.
Qed.

(** A second source of 1 line, 1 word, 3 bytes and width 2 folded into a
    total of 1 line, 1 word, 4 bytes and width 3. *)
Lemma total_adds_counts_and_keeps_widest_witness :
  wc_file c_locale (env_of [] []) all_options
          (ref_file (open_on (bytes_of ("ab" ++ newline)%string)))
          "b" 2 (mkStats 1 1 4 3) (start [])
  = (EXIT_SUCCESS, mkStats 2 2 7 3,
     mkWorld (open_on [])
             ("        1        1        3        2  b" ++ newline)%string
             EmptyString).
Proof.
  exact (total_adds_counts_and_keeps_widest c_locale (env_of [] [])
           all_options 2
           (ref_file (open_on (bytes_of ("ab" ++ newline)%string)))
           "b" (mkStats 1 1 4 3) (mkStats 1 1 3 2) (start []) at_eof
           eq_refl
           ltac:(unfold stats_representable, representable, UINTMAX_MAX;
                 cbn; lia)
           ltac:(vm_compute; reflexivity)
           ltac:(vm_compute; discriminate)
           ltac:(vm_compute; discriminate)
           ltac:(vm_compute; discriminate)).
Defined.

(* ================================================================= *)
(** ** The whole run *)

(** [main] once the options are parsed and there are operands: the loop,
    then the total line when more than one operand was given. *)
Lemma main_with_operands (loc : Locale) (env : environment)
      (argv0 : string) (cs : list ascii) (o : Options)
      (args : list string) (w : world) :
  parse_options cs = value o ->
  args <> [] ->
  main loc env argv0 cs args w
  = match main_loop loc env (effective o) (Z.of_nat (length args)) args
                    zero_stats w with
    | returned status w' => (status, w')
    | running t w' =>
        if 1 <? Z.of_nat (length args) then
          (0, put_cout w' (write_counts loc (cout w') (effective o) t
                                        (Some "total"%string)))
        else (0, w')
    end.
Proof.
  intros Hp Ha. unfold main. rewrite Hp.
  destruct args as [|a args]; [contradiction|reflexivity].
Qed.

(** [main] once the options are parsed and there is no operand. *)
Lemma main_without_operands (loc : Locale) (env : environment)
      (argv0 : string) (cs : list ascii) (o : Options) (w : world) :
  parse_options cs = value o ->
  main loc env argv0 cs [] w
  = wc_file_stdin loc env (effective o) "stdin" w.
Proof. intros Hp. unfold main. now rewrite Hp. Qed.

(** C6: when several operands were given, the operands before [arg]
    went through, and adding the lines, words or bytes of [arg] to the
    running total gives more than the counter can hold, the loop returns
    with the non-zero status [EXIT_FAILURE] whatever operands follow, the
    last thing on the standard output being the line of [arg] itself: the
    operands after it are not processed and no total line is written.
    [main] on these operands exits with that status. *)
Theorem overflow_aborts_the_run
        (loc : Locale) (env : environment) (options : Options) (nfiles : Z)
        (pre : list string) (arg : string) (rest : list string)
        (total0 total_stats s : FileStatistics) (w0 w : world)
        (r : istream_ref) (ins' : istream) :
  1 < nfiles ->
  stats_representable total0 ->
  main_loop loc env options nfiles pre total0 w0 = running total_stats w ->
  resolve env arg = op_stream r ->
  wc loc options (deref w r) = (value s, ins') ->
  UINTMAX_MAX < lines total_stats + lines s
  \/ UINTMAX_MAX < words total_stats + words s
  \/ UINTMAX_MAX < bytes total_stats + bytes s ->
  EXIT_FAILURE <> 0
  /\ exists w' : world,
      main_loop loc env options nfiles (pre ++ arg :: rest) total0 w0
      = returned EXIT_FAILURE w'
      /\ cout w' = write_counts loc (cout w) options s (Some arg)
      /\ forall (argv0 : string) (cs : list ascii) (o : Options),
          parse_options cs = value o ->
          options = effective o ->
          nfiles = Z.of_nat (length (pre ++ arg :: rest)) ->
          total0 = zero_stats ->
          main loc env argv0 cs (pre ++ arg :: rest) w0 = (EXIT_FAILURE, w').
Proof.
  intros Hn Ht0 Hpre Hr Hwc Hover.
  split; [discriminate|].
  pose proof (main_loop_representable loc env options nfiles pre _ _ _ _
                Ht0 Hpre) as Ht.
  pose proof (wc_file_counts loc env options nfiles r arg total_stats s w
                ins' Hwc Hn Ht) as Hfile.
  cbv zeta in Hfile.
  assert (Hstep : exists w',
             main_step loc env options nfiles arg total_stats w
             = returned EXIT_FAILURE w'
             /\ cout w' = write_counts loc (cout w) options s (Some arg)).
  { rewrite (main_step_stream loc env options nfiles arg r total_stats w Hr).
    rewrite Hfile.
    destruct (Z.leb_spec (lines total_stats + lines s) UINTMAX_MAX);
      [|eexists; split; reflexivity].
    destruct (Z.leb_spec (words total_stats + words s) UINTMAX_MAX);
      [|eexists; split; reflexivity].
    destruct (Z.leb_spec (bytes total_stats + bytes s) UINTMAX_MAX);
      [lia|eexists; split; reflexivity]. }
  destruct Hstep as (w' & Hstep & Hout).
  assert (Hloop : main_loop loc env options nfiles (pre ++ arg :: rest)
                            total0 w0 = returned EXIT_FAILURE w').
  { rewrite main_loop_app, Hpre. cbn [main_loop]. now rewrite Hstep. }
  exists w'. repeat split; [exact Hloop|exact Hout|].
  intros argv0 cs o Hp -> -> ->.
  rewrite (main_with_operands loc env argv0 cs o _ w0 Hp)
    by (destruct pre; discriminate).
  now rewrite Hloop.
Qed.

(** The running total holds the largest line count when a file of one
    line comes, followed by another operand. *)
Lemma overflow_aborts_the_run_witness :
  exists w' : world,
    main_loop c_locale
              (env_of [] [("a", bytes_of ("x" ++ newline));
                          ("b", bytes_of ("y" ++ newline))]%string)
              all_options 2 ["a"; "b"]%string
              (mkStats UINTMAX_MAX 0 0 0) (start [])
    = returned EXIT_FAILURE w'
    /\ cout w'
       = ("        1        1        2        1  a" ++ newline)%string.
Proof.
  destruct (overflow_aborts_the_run c_locale
           (env_of [] [("a", bytes_of ("x" ++ newline));
                       ("b", bytes_of ("y" ++ newline))]%string)
           all_options 2 [] "a" ["b"%string]
           (mkStats UINTMAX_MAX 0 0 0) (mkStats UINTMAX_MAX 0 0 0)
           (mkStats 1 1 2 1) (start []) (start [])
           (ref_file (open_on (bytes_of ("x" ++ newline)%string))) at_eof
           eq_refl
           ltac:(unfold stats_representable, representable, UINTMAX_MAX;
                 cbn; lia)
           eq_refl
           ltac:(vm_compute; reflexivity)
           ltac:(vm_compute; reflexivity)
           ltac:(left; vm_compute; reflexivity))
    as (_ & w' & Hloop & Hout & _).
  exists w'. split; [exact Hloop|exact Hout].
Defined.

(** C7, counterexample: of the two operands given, ["nope"] names
    nothing and only ["a"] is counted, and yet a total line ends the
    output. *)
Lemma total_line_with_one_source_counted :
  let env := env_of [] [("a", bytes_of ("x" ++ newline))]%string in
  length (filter (counted env) ["a"; "nope"]%string) = 1%nat
  /\ main c_locale env "wc" [] ["a"; "nope"]%string (start [])
     = (0, mkWorld (open_on [])
             ("        1        1        2  a" ++ newline ++
              "        1        1        2  total" ++ newline)
             ("wc: nope: No such file or directory." ++ newline))%string.
Proof. split; vm_compute; reflexivity. Qed.

(** Strings put end to end. *)
Lemma append_assoc (a b c : string) :
  ((a ++ b) ++ c = a ++ (b ++ c))%string.
Proof. induction a as [|x a IH]; simpl; [reflexivity|now rewrite IH]. Qed.

Lemma append_nil_r (a : string) : (a ++ "" = a)%string.
Proof. induction a as [|x a IH]; simpl; [reflexivity|now rewrite IH]. Qed.

Lemma length_append (a b : string) :
  String.length (a ++ b) = (String.length a + String.length b)%nat.
Proof. induction a as [|x a IH]; simpl; [reflexivity|now rewrite IH]. Qed.

Lemma write_counts_longer (loc : Locale) (os : string) (options : Options)
      (s : FileStatistics) (file : option string) :
  (String.length os
   < String.length (write_counts loc os options s file))%nat.
Proof.
  unfold write_counts.
  destruct (count_lines options), (count_words options),
    (count_bytes options), (count_max_line_length options), file;
    rewrite !length_append; change (String.length newline) with 1%nat; lia.
Qed.

(** C7, amended: in a run whose options are accepted and that is given
    operands, the standard output at the end is the output of the loop
    over the operands followed by a line labelled "total" exactly when
    more than one operand was given on the command line and the loop ran
    to its end, whether or not each operand could be counted; the line
    then shows the running total and the status is 0.  In every other
    such run no total line is written: when the loop was ended early, by
    an overflow of the total or by a file-system query that throws, the
    run ends with the loop's status and streams, and with a single
    operand it ends with status 0 and the loop's streams. *)
Theorem total_line_iff_several_operands
        (loc : Locale) (env : environment) (argv0 : string)
        (cs : list ascii) (o : Options) (args : list string) (w : world) :
  parse_options cs = value o ->
  args <> [] ->
  let out := main_loop loc env (effective o) (Z.of_nat (length args)) args
                       zero_stats w in
  let final := snd (main loc env argv0 cs args w) in
  ((exists t : FileStatistics,
       cout final
       = write_counts loc (cout (outcome_world out)) (effective o) t
                      (Some "total"%string))
   <-> (1 < length args)%nat /\ ran_to_end out)
  /\ (forall (t : FileStatistics) (wl : world),
         (1 < length args)%nat ->
         out = running t wl ->
         main loc env argv0 cs args w
         = (0, put_cout wl (write_counts loc (cout wl) (effective o) t
                                         (Some "total"%string))))
  /\ (forall (status : Z) (wl : world),
         out = returned status wl ->
         main loc env argv0 cs args w = (status, wl))
  /\ (forall (t : FileStatistics) (wl : world),
         ~ (1 < length args)%nat ->
         out = running t wl ->
         main loc env argv0 cs args w = (0, wl)).
Proof.
  intros Hp Ha out final.
  assert (Hmain := main_with_operands loc env argv0 cs o args w Hp Ha).
  change (main_loop loc env (effective o) (Z.of_nat (length args)) args
                    zero_stats w) with out in Hmain.
  assert (Hyes : forall t wl, (1 < length args)%nat -> out = running t wl ->
                 main loc env argv0 cs args w
                 = (0, put_cout wl (write_counts loc (cout wl) (effective o) t
                                                 (Some "total"%string)))).
  { intros t wl Hn Hout. rewrite Hmain, Hout.
    assert (E : (1 <? Z.of_nat (length args)) = true)
      by (apply Z.ltb_lt; lia).
    now rewrite E. }
  assert (Hearly : forall status wl, out = returned status wl ->
                   main loc env argv0 cs args w = (status, wl)).
  { intros status wl Hout. now rewrite Hmain, Hout. }
  assert (Hone : forall t wl, ~ (1 < length args)%nat -> out = running t wl ->
                 main loc env argv0 cs args w = (0, wl)).
  { intros t wl Hn Hout. rewrite Hmain, Hout.
    assert (E : (1 <? Z.of_nat (length args)) = false)
      by (apply Z.ltb_ge; lia).
    now rewrite E. }
  split; [|split; [exact Hyes|split; [exact Hearly|exact Hone]]].
  split.
  - intros (t & Ht).
    destruct out as [status wl|t' wl] eqn:Hout.
    + exfalso. unfold final in Ht.
      rewrite (Hearly status wl eq_refl) in Ht.
      cbn [snd outcome_world] in Ht.
      pose proof (write_counts_longer loc (cout wl) (effective o) t
                    (Some "total"%string)) as Hlen.
      rewrite <- Ht in Hlen. lia.
    + destruct (Nat.ltb_spec 1 (length args)) as [Hn|Hn].
      * split; [exact Hn|]. now exists t', wl.
      * exfalso. unfold final in Ht.
        rewrite (Hone t' wl ltac:(lia) eq_refl) in Ht.
        cbn [snd outcome_world] in Ht.
        pose proof (write_counts_longer loc (cout wl) (effective o) t
                      (Some "total"%string)) as Hlen.
        rewrite <- Ht in Hlen. lia.
  - intros (Hn & t & wl & Hout). exists t.
    unfold final. rewrite (Hyes t wl Hn Hout), Hout. reflexivity.
Qed.

(** One operand: no total line.  Two operands of which the second names
    nothing: a total line.  Two operands of which the first cannot be
    queried: the run ends there, without a total line. *)
Lemma total_line_iff_several_operands_witness :
  main c_locale (env_of [] [("a", bytes_of ("x" ++ newline))]%string)
       "wc" [] ["a"]%string (start [])
  = (0, mkWorld (open_on [])
          ("        1        1        2  a" ++ newline)%string
          EmptyString)
  /\ main c_locale (env_of [] [("a", bytes_of ("x" ++ newline))]%string)
          "wc" [] ["a"; "nope"]%string (start [])
     = (0, mkWorld (open_on [])
             ("        1        1        2  a" ++ newline ++
              "        1        1        2  total" ++ newline)
             ("wc: nope: No such file or directory." ++ newline))%string
  /\ main c_locale
          (failing_on "long" "terminate called"
             (env_of [] [("a", bytes_of ("x" ++ newline))]%string))
          "wc" [] ["long"; "a"]%string (start [])
     = (SIGABRT_STATUS,
        mkWorld (open_on []) EmptyString "terminate called"%string).
Proof.
  split; [|split].
  - exact (proj2 (proj2 (proj2 (total_line_iff_several_operands c_locale
             (env_of [] [("a", bytes_of ("x" ++ newline))]%string)
             "wc" [] (mkOptions false false false false) ["a"]%string
             (start []) eq_refl ltac:(discriminate))))
             (mkStats 0 0 0 0)
             (mkWorld (open_on [])
                ("        1        1        2  a" ++ newline)%string
                EmptyString)
             ltac:(cbn; lia) ltac:(vm_compute; reflexivity)).
  - exact (proj1 (proj2 (total_line_iff_several_operands c_locale
             (env_of [] [("a", bytes_of ("x" ++ newline))]%string)
             "wc" [] (mkOptions false false false false)
             ["a"; "nope"]%string (start []) eq_refl ltac:(discriminate)))
             (mkStats 1 1 2 1)
             (mkWorld (open_on [])
                ("        1        1        2  a" ++ newline)%string
                ("wc: nope: No such file or directory." ++ newline)%string)
             ltac:(cbn; lia) ltac:(vm_compute; reflexivity)).
  - exact (proj1 (proj2 (proj2 (total_line_iff_several_operands c_locale
             (failing_on "long" "terminate called"
                (env_of [] [("a", bytes_of ("x" ++ newline))]%string))
             "wc" [] (mkOptions false false false false)
             ["long"; "a"]%string (start []) eq_refl ltac:(discriminate))))
             SIGABRT_STATUS
             (mkWorld (open_on []) EmptyString "terminate called"%string)
             ltac:(vm_compute; reflexivity)).
Defined.

(* ================================================================= *)
(** ** Faults and operands that cannot be read *)

(** The standard input as the loop over the operands reads it, when its
    source faults after [data]: the clean input [data]. *)
Lemma deref_cin_faulty (w : world) (data : list ascii) :
  cin w = open_faulty data -> deref w ref_cin = open_on data.
Proof. intros H. unfold deref, stdio_synchronised. now rewrite H. Qed.

(** C8, on the code: when the standard input is named by the operand
    ["-"] and its source faults after [data], no error is returned: the
    stream, still synchronised with stdio, ends as on a clean end of
    input.  [main] writes the counts of [data] as the line of ["-"],
    writes nothing on the error stream and exits with status 0. *)
Theorem read_fault_on_dash_is_not_reported
        (loc : Locale) (env : environment) (argv0 : string)
        (cs : list ascii) (o : Options) (data : list ascii) (w : world) :
  parse_options cs = value o ->
  resolve env "-" = op_stream ref_cin ->
  cin w = open_faulty data ->
  exists s : FileStatistics,
    wc loc (effective o) (deref w ref_cin) = (value s, at_eof)
    /\ main loc env argv0 cs ["-"%string] w
       = (0, mkWorld at_eof
               (write_counts loc (cout w) (effective o) s (Some "-"%string))
               (cerr w)).
Proof.
  intros Hp Hr Hin.
  rewrite (deref_cin_faulty w data Hin).
  rewrite (main_with_operands loc env argv0 cs o _ w Hp) by discriminate.
  cbn [length Z.of_nat Pos.of_succ_nat main_loop].
  rewrite (main_step_stream loc env (effective o) 1 "-" ref_cin zero_stats w
             Hr).
  unfold wc_file. rewrite (deref_cin_faulty w data Hin), wc_result.
  cbv zeta. eexists. split; [reflexivity|].
  reflexivity.
Qed.

(** The standard input faulting after "abc", named by ["-"]. *)
Lemma read_fault_on_dash_is_not_reported_witness :
  main c_locale (env_of [] []) "wc" [] ["-"]%string
       (mkWorld (open_faulty (bytes_of "abc")) EmptyString EmptyString)
  = (0, mkWorld at_eof ("        0        1        3  -" ++ newline)%string
          EmptyString).
Proof.
  destruct (read_fault_on_dash_is_not_reported c_locale (env_of [] []) "wc"
              [] (mkOptions false false false false) (bytes_of "abc")
              (mkWorld (open_faulty (bytes_of "abc")) EmptyString EmptyString)
              eq_refl eq_refl eq_refl) as (s & Hs & Hmain).
  vm_compute in Hs. injection Hs as <-. exact Hmain.
Defined.

(** C9, on the code: an operand on which a file-system query throws
    ends the run, wherever it stands: the runtime's report is written on
    the error stream, the run ends with the status of SIGABRT, the
    operands that follow are not processed and no total line is
    written. *)
Theorem failing_query_ends_the_run
        (loc : Locale) (env : environment) (options : Options) (nfiles : Z)
        (pre : list string) (arg : string) (rest : list string)
        (total0 total_stats : FileStatistics) (w0 w : world)
        (report : string) :
  main_loop loc env options nfiles pre total0 w0 = running total_stats w ->
  resolve env arg = op_throws report ->
  SIGABRT_STATUS <> 0
  /\ main_loop loc env options nfiles (pre ++ arg :: rest) total0 w0
     = returned SIGABRT_STATUS
                (mkWorld (cin w) (cout w) (cerr w ++ report)%string)
  /\ forall (argv0 : string) (cs : list ascii) (o : Options),
      parse_options cs = value o ->
      options = effective o ->
      nfiles = Z.of_nat (length (pre ++ arg :: rest)) ->
      total0 = zero_stats ->
      main loc env argv0 cs (pre ++ arg :: rest) w0
      = (SIGABRT_STATUS,
         mkWorld (cin w) (cout w) (cerr w ++ report)%string).
Proof.
  intros Hpre Hr. split; [discriminate|].
  assert (Hstep : main_step loc env options nfiles arg total_stats w
                  = returned SIGABRT_STATUS
                      (mkWorld (cin w) (cout w) (cerr w ++ report)%string)).
  { unfold resolve in Hr. unfold main_step, terminate.
    destruct (is_directory env arg) as [[|]|r]; try discriminate;
      [|now injection Hr as ->].
    destruct (is_regular_file env arg) as [[|]|r]; try discriminate;
      [|now injection Hr as ->].
    destruct (arg =? "-")%string; discriminate. }
  assert (Hloop : main_loop loc env options nfiles (pre ++ arg :: rest)
                            total0 w0
                  = returned SIGABRT_STATUS
                      (mkWorld (cin w) (cout w) (cerr w ++ report)%string)).
  { rewrite main_loop_app, Hpre. cbn [main_loop]. now rewrite Hstep. }
  split; [exact Hloop|].
  intros argv0 cs o Hp -> -> ->.
  rewrite (main_with_operands loc env argv0 cs o _ w0 Hp)
    by (destruct pre; discriminate).
  now rewrite Hloop.
Qed.

(** A file, then a name whose status cannot be had, then the file
    again: one line, the report, and the status of SIGABRT. *)
Lemma failing_query_ends_the_run_witness :
  let env := failing_on "long" ("terminate called" ++ newline)
               (env_of [] [("a", bytes_of ("x" ++ newline))])%string in
  main c_locale env "wc" [] ["a"; "long"; "a"]%string (start [])
  = (SIGABRT_STATUS,
     mkWorld (open_on []) ("        1        1        2  a" ++ newline)
             ("terminate called" ++ newline))%string.
Proof.
  intros env.
  exact (proj2 (proj2 (failing_query_ends_the_run c_locale env
                         (mkOptions true true true false) 3 ["a"%string]
                         "long" ["a"%string] zero_stats (mkStats 1 1 2 1)
                         (start [])
                         (mkWorld (open_on [])
                            ("        1        1        2  a" ++ newline)%string
                            EmptyString)
                         ("terminate called" ++ newline)%string
                         ltac:(vm_compute; reflexivity) eq_refl))
           "wc"%string [] (mkOptions false false false false)
           eq_refl eq_refl eq_refl eq_refl).
Defined.

(* ================================================================= *)
(** ** The output line *)

Lemma length_spaces (n : nat) : String.length (spaces n) = n.
Proof. induction n as [|n IH]; simpl; [reflexivity|now rewrite IH]. Qed.

(** A right-aligned string is the string after as many spaces as it
    lacks to be [width] long. *)
Lemma length_right_align (width : nat) (s : string) :
  String.length (right_align width s) = Nat.max width (String.length s).
Proof. unfold right_align. rewrite length_append, length_spaces. lia. Qed.

(** The options that come out of the parsing loop: those it went in
    with and those named by the characters read. *)
Lemma parse_options_from_flags (cs : list ascii) :
  forall options : Options,
    forallb counting_flag cs = true ->
    parse_options_from options cs
    = value (mkOptions
               (count_bytes options || existsb (Ascii.eqb "c") cs)
               (count_lines options || existsb (Ascii.eqb "l") cs)
               (count_words options || existsb (Ascii.eqb "w") cs)
               (count_max_line_length options
                || existsb (Ascii.eqb "L") cs)).
Proof.
  induction cs as [|c cs IH]; intros options Hall.
  - cbn. rewrite !orb_false_r. now destruct options.
  - cbn [forallb] in Hall. apply andb_true_iff in Hall as [Hc Hall].
    cbn [parse_options_from existsb]. unfold counting_flag in Hc.
    destruct (Ascii.eqb_spec c "c") as [->|_].
    { rewrite IH by exact Hall. cbn. now rewrite !orb_true_r. }
    destruct (Ascii.eqb_spec c "l") as [->|_].
    { rewrite IH by exact Hall. cbn. now rewrite !orb_true_r. }
    destruct (Ascii.eqb_spec c "L") as [->|_].
    { rewrite IH by exact Hall. cbn. now rewrite !orb_true_r. }
    destruct (Ascii.eqb_spec c "w") as [->|_]; [|discriminate].
    rewrite IH by exact Hall. cbn. now rewrite !orb_true_r.
Qed.

Lemma parse_options_from_value (cs : list ascii) :
  forall options o : Options,
    parse_options_from options cs = value o ->
    forallb counting_flag cs = true.
Proof.
  induction cs as [|c cs IH]; intros options o H; [reflexivity|].
  cbn [parse_options_from forallb] in *. unfold counting_flag.
  destruct (c =? "c")%char; [exact (IH _ _ H)|].
  destruct (c =? "l")%char; [exact (IH _ _ H)|].
  destruct (c =? "L")%char; [exact (IH _ _ H)|].
  destruct (c =? "w")%char; [exact (IH _ _ H)|].
  destruct (c =? "h")%char; discriminate.
Qed.

Lemma existsb_Permutation (A : Type) (f : A -> bool) (l l' : list A) :
  Permutation l l' -> existsb f l = existsb f l'.
Proof.
  induction 1; cbn; try congruence.
  destruct (f x), (f y); reflexivity.
Qed.

Lemma forallb_Permutation (A : Type) (f : A -> bool) (l l' : list A) :
  Permutation l l' -> forallb f l = forallb f l'.
Proof.
  induction 1; cbn; try congruence.
  destruct (f x), (f y); reflexivity.
Qed.

(** C10: option characters given in another order select the same
    counters; and whatever the counters selected, the statistics and the
    name, an output line is what was written before, then the selected
    counters in the order lines, words, bytes, maximum line length, each
    as two spaces followed by its digits right-aligned with spaces to
    seven characters at least, then the name when there is one, then a
    newline. *)
Theorem output_line_layout
        (loc : Locale) (cs cs' : list ascii) (o : Options) :
  Permutation cs cs' ->
  parse_options cs = value o ->
  parse_options cs' = value o
  /\ (forall (os : string) (options : Options) (s : FileStatistics)
             (file : option string),
         write_counts loc os options s file
         = (os ++ concat_strings
                    (map (format_count loc) (requested_fields options s))
               ++ match file with
                  | Some f => "  " ++ f
                  | None => ""
                  end
               ++ newline)%string)
  /\ (forall n : Z,
         format_count loc n
         = ("  " ++ spaces (7 - String.length (format_L loc n))
                 ++ format_L loc n)%string
         /\ String.length (format_count loc n)
            = (2 + Nat.max 7 (String.length (format_L loc n)))%nat).
Proof.
  intros Hperm Hparse. split; [|split].
  - unfold parse_options in *.
    pose proof (parse_options_from_value cs _ _ Hparse) as Hall.
    rewrite (parse_options_from_flags cs _ Hall) in Hparse.
    rewrite (forallb_Permutation _ _ _ _ Hperm) in Hall.
    rewrite (parse_options_from_flags cs' _ Hall).
    now rewrite <- !(existsb_Permutation _ _ _ _ Hperm).
  - intros os options s file.
    unfold write_counts, requested_fields.
    destruct (count_lines options), (count_words options),
      (count_bytes options), (count_max_line_length options), file;
      cbn [app map concat_strings fold_right];
      rewrite ?append_assoc, ?append_nil_r; reflexivity.
  - intros n. split; [reflexivity|].
    unfold format_count.
    change (String.length ("  " ++ right_align 7 (format_L loc n)))
      with (2 + String.length (right_align 7 (format_L loc n)))%nat.
    now rewrite length_right_align.
Qed.

(** The options [-c -L -l] and [-l -L -c]; the line of 1,234 lines,
    56 bytes and width 7 for the name ["f"]. *)
Lemma output_line_layout_witness :
  parse_options ["l"; "L"; "c"]%char = parse_options ["c"; "L"; "l"]%char
  /\ write_counts c_locale EmptyString (mkOptions true true false true)
                  (mkStats 1234 0 56 7) (Some "f"%string)
     = ("     1234" ++ "       56" ++ "        7" ++ "  f" ++ newline)%string.
Proof.
  destruct (output_line_layout c_locale ["c"; "L"; "l"]%char
              ["l"; "L"; "c"]%char (mkOptions true true false true)
              ltac:(apply Permutation_rev) eq_refl)
    as (Hp & Hline & _).
  split.
  - exact Hp.
  - exact (Hline EmptyString (mkOptions true true false true)
                 (mkStats 1234 0 56 7) (Some "f"%string)).
Defined.

(* ================================================================= *)
(** * Further properties of the code *)

(* ================================================================= *)
(** ** chkd_add *)

(** X1: on two values the counter can hold, [chkd_add] succeeds exactly
    when their sum is one the counter can hold, and then stores the sum
    itself; otherwise it reports failure and leaves the result variable
    as it was. *)
Theorem chkd_add_detects_overflow (res a b : Z) :
  representable a ->
  representable b ->
  (a + b <= UINTMAX_MAX -> chkd_add res a b = (true, a + b))
  /\ (UINTMAX_MAX < a + b -> chkd_add res a b = (false, res)).
Proof.
  intros Ha Hb. rewrite (chkd_add_spec res a b Ha Hb). split; intros H.
  - apply Z.leb_le in H. now rewrite H.
  - apply Z.leb_gt in H. now rewrite H.
Qed.

(** The largest value plus one, and one plus two. *)
Lemma chkd_add_detects_overflow_witness :
  chkd_add 7 UINTMAX_MAX 1 = (false, 7) /\ chkd_add 7 1 2 = (true, 3).
Proof.
  split.
  - exact (proj2 (chkd_add_detects_overflow 7 UINTMAX_MAX 1
                    ltac:(unfold representable, UINTMAX_MAX; lia)
                    ltac:(unfold representable, UINTMAX_MAX; lia))
             ltac:(vm_compute; reflexivity)).
  - exact (proj1 (chkd_add_detects_overflow 7 1 2
                    ltac:(unfold representable, UINTMAX_MAX; lia)
                    ltac:(unfold representable, UINTMAX_MAX; lia))
             ltac:(vm_compute; discriminate)).
Defined.

(* ================================================================= *)
(** ** parse_options *)

Lemma parse_options_from_app (flags rest : list ascii) :
  forall options : Options,
    forallb counting_flag flags = true ->
    parse_options_from options (flags ++ rest)
    = parse_options_from
        (mkOptions
           (count_bytes options || existsb (Ascii.eqb "c") flags)
           (count_lines options || existsb (Ascii.eqb "l") flags)
           (count_words options || existsb (Ascii.eqb "w") flags)
           (count_max_line_length options
            || existsb (Ascii.eqb "L") flags))
        rest.
Proof.
  induction flags as [|c flags IH]; intros options Hall.
  - cbn. rewrite !orb_false_r. now destruct options.
  - cbn [forallb] in Hall. apply andb_true_iff in Hall as [Hc Hall].
    cbn [app parse_options_from existsb]. unfold counting_flag in Hc.
    destruct (Ascii.eqb_spec c "c") as [->|_].
    { rewrite IH by exact Hall. cbn. now rewrite !orb_true_r. }
    destruct (Ascii.eqb_spec c "l") as [->|_].
    { rewrite IH by exact Hall. cbn. now rewrite !orb_true_r. }
    destruct (Ascii.eqb_spec c "L") as [->|_].
    { rewrite IH by exact Hall. cbn. now rewrite !orb_true_r. }
    destruct (Ascii.eqb_spec c "w") as [->|_]; [|discriminate].
    rewrite IH by exact Hall. cbn. now rewrite !orb_true_r.
Qed.

(** X2: the parsing succeeds exactly when every character read selects
    a counter, and the options it returns then have a flag set exactly
    when its character occurs, however often and wherever. *)
Theorem parse_options_selects (cs : list ascii) (o : Options) :
  parse_options cs = value o
  <-> forallb counting_flag cs = true /\ o = options_of cs.
Proof.
  unfold parse_options. split.
  - intros H.
    pose proof (parse_options_from_value cs _ _ H) as Hall.
    rewrite (parse_options_from_flags cs _ Hall) in H.
    split; [exact Hall|]. now injection H as <-.
  - intros [Hall ->]. now rewrite (parse_options_from_flags cs _ Hall).
Qed.

Lemma parse_options_first_other
      (flags : list ascii) (c : ascii) (rest : list ascii) :
  forallb counting_flag flags = true ->
  counting_flag c = false ->
  parse_options (flags ++ c :: rest)
  = unexpected (if (c =? "h")%char then help_requested else unknown_option).
Proof.
  intros Hall Hc. unfold parse_options.
  rewrite parse_options_from_app by exact Hall.
  cbn [parse_options_from]. unfold counting_flag in Hc.
  destruct (c =? "c")%char; [discriminate|].
  destruct (c =? "l")%char; [discriminate|].
  destruct (c =? "L")%char; [discriminate|].
  destruct (c =? "w")%char; [discriminate|].
  now destruct (c =? "h")%char.
Qed.

(** X3: the first character that selects no counter decides the
    parsing, whatever follows it: ["h"] asks for the help, any other
    character is an unknown option. *)
Theorem parse_options_stops_at_first_other
        (flags : list ascii) (c : ascii) (rest : list ascii) :
  forallb counting_flag flags = true ->
  counting_flag c = false ->
  parse_options (flags ++ c :: rest)
  = unexpected (if (c =? "h")%char then help_requested else unknown_option).
Proof. exact (parse_options_first_other flags c rest). Qed.

(** The help asked for before an unknown option, and after one. *)
Lemma parse_options_stops_at_first_other_witness :
  parse_options ["l"; "h"; "?"]%char = unexpected help_requested
  /\ parse_options ["l"; "?"; "h"]%char = unexpected unknown_option.
Proof.
  split.
  - exact (parse_options_stops_at_first_other ["l"]%char "h" ["?"]%char
             eq_refl eq_refl).
  - exact (parse_options_stops_at_first_other ["l"]%char "?" ["h"]%char
             eq_refl eq_refl).
Defined.

(* ================================================================= *)
(** ** main: the options *)

(** X4: when the help is asked for before any unknown option, [main]
    writes the help text on the standard output and exits with status 0,
    whatever the operands and the file system: nothing is read, nothing
    is counted and nothing goes to the error stream. *)
Theorem help_bypasses_counting
        (loc : Locale) (env : environment) (argv0 : string)
        (flags rest : list ascii) (args : list string) (w : world) :
  forallb counting_flag flags = true ->
  main loc env argv0 (flags ++ "h"%char :: rest) args w
  = (0, mkWorld (cin w) (help (cout w) argv0) (cerr w)).
Proof.
  intros Hall. unfold main.
  now rewrite (parse_options_first_other flags "h" rest Hall eq_refl).
Qed.

(** The help asked for after [-l], with an operand that would fault. *)
Lemma help_bypasses_counting_witness :
  main c_locale
       (mkEnv (fun _ => answers false) (fun _ => answers true)
              (fun _ => open_faulty []) EmptyString EmptyString)
       "wc" ["l"; "h"; "?"]%char ["a"]%string (start [])
  = (0, mkWorld (open_on []) (help EmptyString "wc") EmptyString).
Proof.
  exact (help_bypasses_counting c_locale
           (mkEnv (fun _ => answers false) (fun _ => answers true)
                  (fun _ => open_faulty []) EmptyString EmptyString)
           "wc" ["l"]%char ["?"]%char ["a"]%string (start []) eq_refl).
Defined.

(** X5: when the first character that selects no counter is not ["h"],
    the option [getopt_long] did not recognise, the error stream gets
    the line [getopt_long] writes for it followed by the usage message,
    and [main] exits with [EXIT_FAILURE], whatever the operands and the
    file system: nothing is read and nothing goes to the standard
    output. *)
Theorem unknown_option_is_fatal
        (loc : Locale) (env : environment) (argv0 : string)
        (flags : list ascii) (c : ascii) (rest : list ascii)
        (args : list string) (w : world) :
  forallb counting_flag flags = true ->
  counting_flag c = false ->
  c <> "h"%char ->
  main loc env argv0 (flags ++ c :: rest) args w
  = (EXIT_FAILURE,
     mkWorld (cin w) (cout w)
             (cerr w ++ getopt_message env
                     ++ "The syntax of the command is incorrect." ++ newline
                     ++ "Try " ++ argv0 ++ " -h for more information."
                     ++ newline)%string)
  /\ EXIT_FAILURE <> 0.
Proof.
  intros Hall Hc Hh. split; [|discriminate]. unfold main, parse_options_cerr.
  rewrite (parse_options_first_other flags c rest Hall Hc).
  apply Ascii.eqb_neq in Hh. rewrite Hh.
  unfold put_cerr, usage_err. now rewrite append_assoc.
Qed.

(** An option that is not recognised, after [-w] and before [-h]. *)
Lemma unknown_option_is_fatal_witness :
  main c_locale
       (reporting ("wc: invalid option -- 'x'" ++ newline) (env_of [] []))
       "wc" ["w"; "?"; "h"]%char ["a"]%string (start [])
  = (EXIT_FAILURE,
     mkWorld (open_on []) EmptyString
             ("wc: invalid option -- 'x'" ++ newline
              ++ "The syntax of the command is incorrect." ++ newline
              ++ "Try wc -h for more information." ++ newline))%string
  /\ EXIT_FAILURE <> 0.
Proof.
  exact (unknown_option_is_fatal c_locale
           (reporting ("wc: invalid option -- 'x'" ++ newline)
                      (env_of [] []))%string
           "wc" ["w"]%char "?" ["h"]%char ["a"]%string (start [])
           eq_refl eq_refl ltac:(discriminate)).
Defined.

Lemma effective_options_of_clw (cs : list ascii) :
  existsb (Ascii.eqb "c") cs = true ->
  existsb (Ascii.eqb "l") cs = true ->
  existsb (Ascii.eqb "w") cs = true ->
  existsb (Ascii.eqb "L") cs = false ->
  effective (options_of cs) = effective (options_of []).
Proof. unfold options_of. now intros -> -> -> ->. Qed.

Lemma main_depends_on_effective
      (loc : Locale) (env : environment) (argv0 : string)
      (cs cs' : list ascii) (o o' : Options) (args : list string)
      (w : world) :
  parse_options cs = value o ->
  parse_options cs' = value o' ->
  effective o = effective o' ->
  main loc env argv0 cs args w = main loc env argv0 cs' args w.
Proof.
  intros Hp Hp' He. destruct args as [|a args].
  - rewrite (main_without_operands loc env argv0 cs o w Hp).
    rewrite (main_without_operands loc env argv0 cs' o' w Hp').
    now rewrite He.
  - rewrite (main_with_operands loc env argv0 cs o _ w Hp) by discriminate.
    rewrite (main_with_operands loc env argv0 cs' o' _ w Hp')
      by discriminate.
    now rewrite He.
Qed.

(** X6: given no option at all, [main] behaves in every respect as when
    given the options for bytes, lines and words, in any order and any
    number of times, and not the one for the maximum line length. *)
Theorem default_mode_is_bytes_lines_words
        (loc : Locale) (env : environment) (argv0 : string)
        (cs : list ascii) (args : list string) (w : world) :
  forallb counting_flag cs = true ->
  existsb (Ascii.eqb "c") cs = true ->
  existsb (Ascii.eqb "l") cs = true ->
  existsb (Ascii.eqb "w") cs = true ->
  existsb (Ascii.eqb "L") cs = false ->
  main loc env argv0 [] args w = main loc env argv0 cs args w.
Proof.
  intros Hall Hc Hl Hw HL.
  apply (main_depends_on_effective loc env argv0 [] cs
           (options_of []) (options_of cs)).
  - reflexivity.
  - unfold parse_options. now rewrite (parse_options_from_flags cs _ Hall).
  - symmetry. now apply effective_options_of_clw.
Qed.

(** No option, and the options [-w -c -l -c]. *)
Lemma default_mode_is_bytes_lines_words_witness :
  main c_locale (env_of [] [("a", bytes_of "x y")]%string) "wc" []
       ["a"]%string (start [])
  = main c_locale (env_of [] [("a", bytes_of "x y")]%string) "wc"
         ["w"; "c"; "l"; "c"]%char ["a"]%string (start []).
Proof.
  exact (default_mode_is_bytes_lines_words c_locale
           (env_of [] [("a", bytes_of "x y")]%string) "wc"
           ["w"; "c"; "l"; "c"]%char ["a"]%string (start [])
           eq_refl eq_refl eq_refl eq_refl eq_refl).
Defined.

(* ================================================================= *)
(** ** wc: streams in other states *)

Lemma wc_not_reading (loc : Locale) (options : Options) (ins : istream) :
  ios_fail ins = true ->
  wc loc options ins
  = (if ios_bad ins then unexpected false else value zero_stats, ins).
Proof.
  intros H. unfold wc. cbn [wc_loop]. rewrite H.
  now destruct (ios_bad ins).
Qed.

(** X7: on a stream that has already failed, as that of a file that
    could not be opened, [wc] reads nothing and does not touch the
    stream; it returns statistics that are all zero, and the error only
    when the stream is bad. *)
Theorem wc_on_failed_stream
        (loc : Locale) (options : Options) (ins : istream) :
  (failbit ins = true -> badbit ins = false ->
   wc loc options ins = (value zero_stats, ins))
  /\ (badbit ins = true -> wc loc options ins = (unexpected false, ins)).
Proof.
  split.
  - intros Hf Hb. rewrite wc_not_reading by (unfold ios_fail; now rewrite Hf).
    unfold ios_bad. now rewrite Hb.
  - intros Hb.
    rewrite wc_not_reading
      by (unfold ios_fail; rewrite Hb; apply orb_true_r).
    unfold ios_bad. now rewrite Hb.
Qed.

(** A stream with bytes left and failbit set; a stream with badbit set. *)
Lemma wc_on_failed_stream_witness :
  wc c_locale all_options (mkIstream (bytes_of "abc") false false true false)
  = (value zero_stats, mkIstream (bytes_of "abc") false false true false)
  /\ wc c_locale all_options
        (mkIstream (bytes_of "abc") false false false true)
     = (unexpected false, mkIstream (bytes_of "abc") false false false true).
Proof.
  split.
  - exact (proj1 (wc_on_failed_stream c_locale all_options
                    (mkIstream (bytes_of "abc") false false true false))
             eq_refl eq_refl).
  - exact (proj2 (wc_on_failed_stream c_locale all_options
                    (mkIstream (bytes_of "abc") false false false true))
             eq_refl).
Defined.

(** X8: a stream that [wc] has read to its end gives nothing more: a
    second [wc] on it, with whatever options, returns statistics that
    are all zero. *)
Theorem wc_second_read_is_empty
        (loc : Locale) (options options' : Options) (data : list ascii) :
  wc loc options' (snd (wc loc options (open_on data)))
  = (value zero_stats, at_eof).
Proof.
  rewrite wc_result. cbn [snd]. now rewrite wc_not_reading.
Qed.

(* ================================================================= *)
(** ** wc: the options and the read size *)

Section OptionsAndReadSize.
Variable loc : Locale.

Lemma count_chunk_classifying (o o' : Options) (st : counter)
      (buf : list ascii) :
  classifying o = classifying o' ->
  count_chunk loc o st buf = count_chunk loc o' st buf.
Proof.
  unfold classifying, count_chunk. intros H. cbv zeta. now rewrite H.
Qed.

Lemma wc_loop_classifying (o o' : Options) (n : nat) :
  classifying o = classifying o' ->
  forall (fuel : nat) (st : counter) (ins : istream),
    wc_loop loc fuel n o st ins = wc_loop loc fuel n o' st ins.
Proof.
  intros H. induction fuel as [|fuel IH]; intros st ins; [reflexivity|].
  cbn [wc_loop]. destruct (ios_fail ins); [reflexivity|].
  destruct (istream_read ins n) as [[|c buf] ins']; [reflexivity|].
  rewrite (count_chunk_classifying o o' st (c :: buf) H). apply IH.
Qed.

End OptionsAndReadSize.

(** X9: of the options [wc] only uses whether one of lines, words and
    maximum line length is requested: two selections that agree on this
    give the same result on every stream, in whatever state.  Asking for
    the lines alone thus computes the words and the width as well. *)
Theorem wc_uses_options_through_classifying
        (loc : Locale) (o o' : Options) (ins : istream) :
  classifying o = classifying o' ->
  wc loc o ins = wc loc o' ins.
Proof.
  intros H. unfold wc.
  now rewrite (wc_loop_classifying loc o o' bufsize H).
Qed.

(** Lines alone against all four counters. *)
Lemma wc_uses_options_through_classifying_witness :
  wc c_locale (mkOptions false true false false)
     (open_on (bytes_of "a b"))
  = wc c_locale all_options (open_on (bytes_of "a b")).
Proof.
  exact (wc_uses_options_through_classifying c_locale
           (mkOptions false true false false) all_options
           (open_on (bytes_of "a b")) eq_refl).
Defined.

(** X10: when only the bytes are requested the bytes of the input are
    not looked at: lines, words and maximum line length are reported as
    0 and the bytes as the length of the input, in every locale. *)
Theorem wc_bytes_only
        (loc : Locale) (options : Options) (data : list ascii) :
  classifying options = false ->
  Z.of_nat (length data) <= UINTMAX_MAX ->
  wc loc options (open_on data)
  = (value (mkStats 0 0 (Z.of_nat (length data)) 0), at_eof).
Proof.
  intros Hc Hmax. rewrite wc_result. unfold classify_all.
  unfold classifying in Hc. rewrite Hc. cbv zeta.
  cbn [init_counter stats zero_stats lines words max_line_length line_pos].
  rewrite wrap_small by lia. reflexivity.
Qed.

(** Two lines of two words, with the byte counter alone. *)
Lemma wc_bytes_only_witness :
  wc c_locale (mkOptions true false false false)
     (open_on (bytes_of ("a b" ++ newline ++ "c d" ++ newline)%string))
  = (value (mkStats 0 0 8 0), at_eof).
Proof.
  exact (wc_bytes_only c_locale (mkOptions true false false false)
           (bytes_of ("a b" ++ newline ++ "c d" ++ newline)%string)
           eq_refl ltac:(vm_compute; discriminate)).
Defined.

(** X11: the size of the reads does not matter: on a stream that ends
    cleanly the loop ends in the same counters and the same stream
    state for any two read sizes above 0, the word and column state being
    carried from one chunk to the next. *)
Theorem read_size_is_immaterial
        (loc : Locale) (options : Options) (n m fuel fuel' : nat)
        (st : counter) (data : list ascii) :
  (0 < n)%nat -> (0 < m)%nat ->
  (length data < fuel)%nat -> (length data < fuel')%nat ->
  wc_loop loc fuel n options st (open_on data)
  = wc_loop loc fuel' m options st (open_on data).
Proof.
  intros Hn Hm Hf Hf'.
  rewrite (wc_loop_clean loc options n Hn fuel data st Hf).
  now rewrite (wc_loop_clean loc options m Hm fuel' data st Hf').
Qed.

(** A word cut by reads of 2 bytes, against one read of 7 bytes. *)
Lemma read_size_is_immaterial_witness :
  wc_loop c_locale 8 2 all_options init_counter
          (open_on (bytes_of "abc def"))
  = wc_loop c_locale 9 7 all_options init_counter
            (open_on (bytes_of "abc def")).
Proof.
  exact (read_size_is_immaterial c_locale all_options 2 7 8 9 init_counter
           (bytes_of "abc def")
           ltac:(lia) ltac:(lia) ltac:(cbn; lia) ltac:(cbn; lia)).
Defined.

(* ================================================================= *)
(** ** wc: how the counts relate *)

Lemma count_byte_app (b : ascii) (x y : list ascii) :
  count_byte b (x ++ y) = (count_byte b x + count_byte b y)%nat.
Proof. unfold count_byte. now rewrite filter_app, length_app. Qed.

Lemma run_starts_app (ws : ascii -> bool) (a b : list ascii) :
  forall iw : bool,
    run_starts ws iw (a ++ b)
    = (run_starts ws iw a + run_starts ws (ends_in_run ws iw a) b)%nat.
Proof.
  induction a as [|c a IH]; intros iw; [reflexivity|].
  cbn [app run_starts ends_in_run]. rewrite IH. lia.
Qed.

Lemma count_runs_app (ws : ascii -> bool) (a b : list ascii) :
  (count_runs ws (a ++ b) + (if joined ws a b then 1 else 0)
   = count_runs ws a + count_runs ws b)%nat.
Proof.
  rewrite <- !run_starts_false, run_starts_app. unfold joined.
  pose proof (run_starts_count_runs ws b (ends_in_run ws false a)) as H.
  rewrite <- run_starts_false in H. lia.
Qed.

Lemma count_runs_le (ws : ascii -> bool) (l : list ascii) :
  (count_runs ws l <= length l)%nat.
Proof. rewrite <- run_starts_false. apply run_starts_le. Qed.

(** Newlines and run starts are different bytes. *)
Lemma newlines_and_run_starts (ws : ascii -> bool) (l : list ascii) :
  ws "010"%char = true ->
  forall iw : bool,
    (count_byte "010" l + run_starts ws iw l <= length l)%nat.
Proof.
  intros Hnl. unfold count_byte.
  induction l as [|c l IH]; intros iw; [cbn; lia|].
  cbn [filter run_starts length]. specialize (IH (negb (ws c))).
  destruct (Ascii.eqb_spec "010" c) as [<-|_].
  - rewrite Hnl in *. cbn [negb andb length] in *.
    rewrite andb_false_r. lia.
  - destruct (negb iw && negb (ws c)); lia.
Qed.

Section Relations.
Variable loc : Locale.
Variable options : Options.

(** The statistics when the bytes are classified, up to the
    wrap-around of the counters. *)
Lemma wc_classified (data : list ascii) :
  classifying options = true ->
  wc loc options (open_on data)
  = (let st := fold_left (classify loc) data init_counter in
     value (mkStats (wrap (Z.of_nat (count_byte "010" data)))
                    (wrap (Z.of_nat (count_runs (separator loc) data)))
                    (wrap (Z.of_nat (length data)))
                    (Z.max (line_pos st) (max_line_length (stats st)))),
     at_eof).
Proof.
  intros Hc. rewrite wc_result. unfold classify_all.
  unfold classifying in Hc. rewrite Hc. cbv zeta.
  rewrite fold_classify_lines, fold_classify_words by reflexivity.
  cbn [init_counter in_word stats lines words zero_stats Z.add].
  now rewrite run_starts_false.
Qed.

(** The statistics when the bytes are not classified. *)
Lemma wc_unclassified (data : list ascii) :
  classifying options = false ->
  wc loc options (open_on data)
  = (value (mkStats 0 0 (wrap (Z.of_nat (length data))) 0), at_eof).
Proof.
  intros Hc. rewrite wc_result. unfold classify_all.
  unfold classifying in Hc. now rewrite Hc.
Qed.

End Relations.

(** X12: the statistics of two inputs put end to end, for every locale
    and selection of counters: the lines and the bytes are the sums of
    those of the two inputs, and so are the words, less one when the
    first input ends inside a word and the second starts with one. *)
Theorem wc_of_concatenation
        (loc : Locale) (options : Options) (a b : list ascii) :
  Z.of_nat (length (a ++ b)) <= UINTMAX_MAX ->
  exists sa sb sab : FileStatistics,
    wc loc options (open_on a) = (value sa, at_eof)
    /\ wc loc options (open_on b) = (value sb, at_eof)
    /\ wc loc options (open_on (a ++ b)) = (value sab, at_eof)
    /\ lines sab = lines sa + lines sb
    /\ bytes sab = bytes sa + bytes sb
    /\ words sab
       = words sa + words sb
         - (if classifying options && joined (separator loc) a b
            then 1 else 0).
Proof.
  intros Hmax. rewrite length_app in Hmax.
  destruct (classifying options) eqn:Hc.
  - rewrite !(wc_classified loc options _ Hc). cbv zeta.
    do 3 eexists. repeat split; cbn [lines words bytes andb].
    + pose proof (count_byte_le "010" a). pose proof (count_byte_le "010" b).
      rewrite count_byte_app, !wrap_small by lia. lia.
    + rewrite length_app, !wrap_small by lia. lia.
    + pose proof (count_runs_le (separator loc) a).
      pose proof (count_runs_le (separator loc) b).
      pose proof (count_runs_le (separator loc) (a ++ b)) as Hab.
      rewrite length_app in Hab.
      pose proof (count_runs_app (separator loc) a b).
      rewrite !wrap_small by lia.
      destruct (joined (separator loc) a b); lia.
  - rewrite !(wc_unclassified loc options _ Hc).
    do 3 eexists. repeat split; cbn [lines words bytes andb].
    rewrite length_app, !wrap_small by lia. lia.
Qed.

(** "ab" and "cd e" make "abcd e": three words become two. *)
Lemma wc_of_concatenation_witness :
  exists sa sb sab : FileStatistics,
    wc c_locale all_options (open_on (bytes_of "ab")) = (value sa, at_eof)
    /\ wc c_locale all_options (open_on (bytes_of "cd e"))
       = (value sb, at_eof)
    /\ wc c_locale all_options (open_on (bytes_of "abcd e"))
       = (value sab, at_eof)
    /\ lines sab = lines sa + lines sb
    /\ bytes sab = bytes sa + bytes sb
    /\ words sab = words sa + words sb - 1.
Proof.
  exact (wc_of_concatenation c_locale all_options (bytes_of "ab")
           (bytes_of "cd e") ltac:(vm_compute; discriminate)).
Defined.

(** X13: every newline and every start of a word is a byte of its own:
    for every locale and selection of counters, the lines and the words
    reported add up to no more than the bytes reported. *)
Theorem lines_and_words_within_bytes
        (loc : Locale) (options : Options) (data : list ascii) :
  Z.of_nat (length data) <= UINTMAX_MAX ->
  exists s : FileStatistics,
    wc loc options (open_on data) = (value s, at_eof)
    /\ 0 <= lines s /\ 0 <= words s
    /\ lines s + words s <= bytes s.
Proof.
  intros Hmax. destruct (classifying options) eqn:Hc.
  - rewrite (wc_classified loc options _ Hc). cbv zeta.
    eexists. split; [reflexivity|]. cbn [lines words bytes].
    pose proof (newlines_and_run_starts (separator loc) data eq_refl false)
      as H.
    rewrite run_starts_false in H.
    rewrite !wrap_small by lia. lia.
  - rewrite (wc_unclassified loc options _ Hc).
    eexists. split; [reflexivity|]. cbn [lines words bytes].
    rewrite wrap_small by lia. lia.
Qed.

(** Two lines of one word: 2 + 2 within 4. *)
Lemma lines_and_words_within_bytes_witness :
  exists s : FileStatistics,
    wc c_locale all_options
       (open_on (bytes_of ("a" ++ newline ++ "b" ++ newline)%string))
    = (value s, at_eof)
    /\ 0 <= lines s /\ 0 <= words s
    /\ lines s + words s <= bytes s.
Proof.
  exact (lines_and_words_within_bytes c_locale all_options
           (bytes_of ("a" ++ newline ++ "b" ++ newline)%string)
           ltac:(vm_compute; discriminate)).
Defined.

(** X14: in every locale the words reported are the maximal runs of
    bytes that are none of newline, carriage return, form feed, tab,
    space and vertical tab, which the [switch] treats on its own
    whatever the locale says of them, and that the locale does not class
    as space. *)
Theorem words_between_separators
        (loc : Locale) (options : Options) (data : list ascii) :
  count_words options = true ->
  Z.of_nat (count_runs (separator loc) data) <= UINTMAX_MAX ->
  exists s : FileStatistics,
    wc loc options (open_on data) = (value s, at_eof)
    /\ words s = Z.of_nat (count_runs (separator loc) data).
Proof.
  intros Hw Hmax.
  destruct (wc_words_wrap loc options data Hw) as (s & Hs & Hwords).
  exists s. split; [exact Hs|]. rewrite Hwords. apply wrap_small. lia.
Qed.

(** A locale that has the byte 0xA0 as a space and does not have the
    newline as one: "a", 0xA0, "b", newline, "c" is three words. *)
Lemma words_between_separators_witness :
  exists s : FileStatistics,
    wc (mkLocale c_isprint (fun c => (c =? "160")%char) decimal)
       all_options (open_on ["a"; "160"; "b"; "010"; "c"]%char)
    = (value s, at_eof)
    /\ words s = 3.
Proof.
  exact (words_between_separators
           (mkLocale c_isprint (fun c => (c =? "160")%char) decimal)
           all_options ["a"; "160"; "b"; "010"; "c"]%char eq_refl
           ltac:(vm_compute; discriminate)).
Defined.

(* ================================================================= *)
(** ** The driver: one operand *)

Section OneOperand.
Variable loc : Locale.
Variable env : environment.
Variable options : Options.

(** Without a total to keep, [wc_file] always succeeds and leaves the
    total alone. *)
Lemma wc_file_without_total (r : istream_ref) (file : string) (nfiles : Z)
      (total_stats : FileStatistics) (w : world) :
  nfiles <= 1 ->
  fst (wc_file loc env options r file nfiles total_stats w)
  = (EXIT_SUCCESS, total_stats).
Proof.
  intros Hn. unfold wc_file.
  destruct (wc loc options (deref w r)) as [[s|e] ins']; [|reflexivity].
  apply Z.ltb_ge in Hn. now rewrite Hn.
Qed.

Lemma main_step_without_total (nfiles : Z) (arg : string)
      (total_stats : FileStatistics) (w : world) :
  nfiles <= 1 ->
  (forall report : string, resolve env arg <> op_throws report) ->
  exists w' : world,
    main_step loc env options nfiles arg total_stats w
    = running total_stats w'.
Proof.
  intros Hn Hq. unfold resolve in Hq. unfold main_step.
  destruct (is_directory env arg) as [[|]|report];
    [eexists; reflexivity| |now elim (Hq report)].
  destruct (is_regular_file env arg) as [[|]|report];
    [| |now elim (Hq report)].
  { pose proof (wc_file_without_total (ref_file (ifstream env arg)) arg
                  nfiles total_stats w Hn) as H.
    destruct (wc_file _ _ _ _ _ _ _ _) as [[status t] w'].
    cbn [fst] in H. injection H as -> ->. eexists; reflexivity. }
  destruct (arg =? "-")%string; [|eexists; reflexivity].
  pose proof (wc_file_without_total ref_cin arg nfiles total_stats w Hn)
    as H.
  destruct (wc_file _ _ _ _ _ _ _ _) as [[status t] w'].
  cbn [fst] in H. injection H as -> ->. eexists; reflexivity.
Qed.

(** The standard input is read for no operand that is a directory or a
    regular file, or that is not ["-"]. *)
Lemma wc_file_on_file_keeps_cin (ins : istream) (file : string) (nfiles : Z)
      (total_stats : FileStatistics) (w : world) :
  cin (snd (wc_file loc env options (ref_file ins) file nfiles
                    total_stats w))
  = cin w.
Proof.
  unfold wc_file. cbn [deref store].
  destruct (wc loc options ins) as [[s|e] ins']; [|reflexivity].
  destruct (1 <? nfiles); [|reflexivity].
  repeat match goal with
         | |- context [chkd_add ?x ?a ?b] =>
             destruct (chkd_add x a b) as [[] ?]; cbn [negb]
         end; reflexivity.
Qed.

End OneOperand.

(** X15: a single operand on which the file-system queries answer never
    makes the run fail: whether it is a file that reads well or faults,
    a directory or a path that is not there, [main] exits with status 0,
    keeps no total and writes no total line after what the operand's
    turn of the loop wrote. *)
Theorem single_operand_exits_zero
        (loc : Locale) (env : environment) (argv0 : string)
        (cs : list ascii) (o : Options) (arg : string) (w : world) :
  parse_options cs = value o ->
  (forall report : string, resolve env arg <> op_throws report) ->
  exists w' : world,
    main loc env argv0 cs [arg] w = (0, w')
    /\ main_step loc env (effective o) 1 arg zero_stats w
       = running zero_stats w'.
Proof.
  intros Hp Hq.
  rewrite (main_with_operands loc env argv0 cs o [arg] w Hp)
    by discriminate.
  cbn [length Z.of_nat Pos.of_succ_nat main_loop].
  destruct (main_step_without_total loc env (effective o) 1 arg zero_stats w
              ltac:(lia) Hq) as (w' & Hstep).
  rewrite Hstep. exists w'. split; reflexivity.
Qed.

(** One operand whose file faults, and one that is not there. *)
Lemma single_operand_exits_zero_witness :
  (exists w' : world,
      main c_locale
           (mkEnv (fun _ => answers false) (fun _ => answers true)
                  (fun _ => open_faulty (bytes_of "abc")) EmptyString
                  EmptyString)
           "wc" [] ["bad"]%string (start [])
      = (0, w'))
  /\ (exists w' : world,
         main c_locale (env_of [] []) "wc" [] ["nope"]%string (start [])
         = (0, w')).
Proof.
  split.
  - destruct (single_operand_exits_zero c_locale
                (mkEnv (fun _ => answers false) (fun _ => answers true)
                       (fun _ => open_faulty (bytes_of "abc")) EmptyString
                       EmptyString)
                "wc" [] (mkOptions false false false false) "bad" (start [])
                eq_refl ltac:(discriminate)) as (w' & H & _).
    exists w'. exact H.
  - destruct (single_operand_exits_zero c_locale (env_of [] []) "wc" []
                (mkOptions false false false false) "nope" (start [])
                eq_refl ltac:(discriminate)) as (w' & H & _).
    exists w'. exact H.
Defined.

(** X16: the standard input is read only for an operand ["-"] that names
    neither a directory nor a regular file: the turn of the loop on any
    other operand, and on ["-"] when the file system has such an entry,
    leaves the standard input as it was. *)
Theorem stdin_is_read_only_for_dash
        (loc : Locale) (env : environment) (options : Options) (nfiles : Z)
        (arg : string) (total_stats : FileStatistics) (w : world) :
  resolve env arg <> op_stream ref_cin ->
  cin (outcome_world (main_step loc env options nfiles arg total_stats w))
  = cin w.
Proof.
  intros H. unfold resolve in H. unfold main_step, terminate.
  destruct (is_directory env arg) as [[|]|report]; try reflexivity.
  destruct (is_regular_file env arg) as [[|]|report]; try reflexivity.
  { pose proof (wc_file_on_file_keeps_cin loc env options
                  (ifstream env arg) arg nfiles total_stats w) as Hc.
    destruct (wc_file _ _ _ _ _ _ _ _) as [[status t] w']. cbn [snd] in Hc.
    now destruct (status =? EXIT_FAILURE). }
  destruct (arg =? "-")%string; [now elim H|reflexivity].
Qed.

(** A regular file called "-": it is the file that is counted, and
    the standard input keeps its three bytes. *)
Lemma stdin_is_read_only_for_dash_witness :
  main_step c_locale (env_of [] [("-", bytes_of "file")]%string)
            (mkOptions true false false false) 1 "-" zero_stats
            (start (bytes_of "abc"))
  = running zero_stats
            (mkWorld (open_on (bytes_of "abc"))
                     ("        4  -" ++ newline)%string EmptyString)
  /\ cin (outcome_world
            (main_step c_locale (env_of [] [("-", bytes_of "file")]%string)
                       (mkOptions true false false false) 1 "-" zero_stats
                       (start (bytes_of "abc"))))
     = open_on (bytes_of "abc").
Proof.
  split.
  - vm_compute. reflexivity.
  - exact (stdin_is_read_only_for_dash c_locale
             (env_of [] [("-", bytes_of "file")]%string)
             (mkOptions true false false false) 1 "-" zero_stats
             (start (bytes_of "abc")) ltac:(discriminate)).
Defined.

(* ================================================================= *)
(** ** The driver: the total *)

Section FileTotals.
Variable loc : Locale.
Variable env : environment.
Variable options : Options.
Variable nfiles : Z.

(** The turn of the loop on a regular file that reads well and whose
    counts the total can take. *)
Lemma main_step_file (arg : string) (total_stats s : FileStatistics)
      (ins' : istream) (w : world) :
  1 < nfiles ->
  stats_representable total_stats ->
  is_directory env arg = answers false ->
  is_regular_file env arg = answers true ->
  wc loc options (ifstream env arg) = (value s, ins') ->
  lines total_stats + lines s <= UINTMAX_MAX ->
  words total_stats + words s <= UINTMAX_MAX ->
  bytes total_stats + bytes s <= UINTMAX_MAX ->
  main_step loc env options nfiles arg total_stats w
  = running
      (mkStats (lines total_stats + lines s) (words total_stats + words s)
               (bytes total_stats + bytes s)
               (Z.max (max_line_length s) (max_line_length total_stats)))
      (put_cout w (write_counts loc (cout w) options s (Some arg))).
Proof.
  intros Hn Ht Hd Hf Hwc Hl Hw Hb.
  assert (Hr : resolve env arg = op_stream (ref_file (ifstream env arg)))
    by (unfold resolve; now rewrite Hd, Hf).
  rewrite (main_step_stream loc env options nfiles arg _ total_stats w Hr).
  rewrite (wc_file_counts loc env options nfiles
             (ref_file (ifstream env arg)) arg total_stats s w ins'
             Hwc Hn Ht).
  cbv zeta. apply Z.leb_le in Hl, Hw, Hb. rewrite Hl, Hw, Hb.
  reflexivity.
Qed.

End FileTotals.

(** X17: the total does not depend on the order of the operands: two
    regular files that read well, counted one after the other in either
    order, leave the same running total, which holds the sums of their
    lines, words and bytes and the larger of their widths, provided the
    counters can hold the sums. *)
Theorem total_is_order_independent
        (loc : Locale) (env : environment) (options : Options) (nfiles : Z)
        (a b : string) (total_stats sa sb : FileStatistics)
        (ia ib : istream) (w : world) :
  1 < nfiles ->
  stats_representable total_stats ->
  is_directory env a = answers false ->
  is_regular_file env a = answers true ->
  is_directory env b = answers false ->
  is_regular_file env b = answers true ->
  wc loc options (ifstream env a) = (value sa, ia) ->
  wc loc options (ifstream env b) = (value sb, ib) ->
  lines total_stats + lines sa + lines sb <= UINTMAX_MAX ->
  words total_stats + words sa + words sb <= UINTMAX_MAX ->
  bytes total_stats + bytes sa + bytes sb <= UINTMAX_MAX ->
  exists (t : FileStatistics) (w1 w2 : world),
    main_loop loc env options nfiles [a; b] total_stats w = running t w1
    /\ main_loop loc env options nfiles [b; a] total_stats w = running t w2
    /\ lines t = lines total_stats + lines sa + lines sb
    /\ words t = words total_stats + words sa + words sb
    /\ bytes t = bytes total_stats + bytes sa + bytes sb
    /\ max_line_length t
       = Z.max (max_line_length total_stats)
               (Z.max (max_line_length sa) (max_line_length sb)).
Proof.
  intros Hn Ht Hda Hfa Hdb Hfb Hwa Hwb Hl Hw Hb.
  destruct (wc_representable loc options _ _ _ Hwa)
    as (Hla & Hwa' & Hba & Hma).
  destruct (wc_representable loc options _ _ _ Hwb)
    as (Hlb & Hwb' & Hbb & Hmb).
  pose proof Ht as (Hlt & Hwt & Hbt & Hmt).
  unfold representable in *.
  exists (mkStats (lines total_stats + lines sa + lines sb)
                  (words total_stats + words sa + words sb)
                  (bytes total_stats + bytes sa + bytes sb)
                  (Z.max (max_line_length total_stats)
                         (Z.max (max_line_length sa) (max_line_length sb)))).
  do 2 eexists. repeat split.
  - cbn [main_loop].
    rewrite (main_step_file loc env options nfiles a total_stats sa ia w
               Hn Ht Hda Hfa Hwa) by lia.
    rewrite (main_step_file loc env options nfiles b _ sb ib _
               Hn) by
      (first [ exact Hdb | exact Hfb | exact Hwb
             | unfold stats_representable, representable; cbn; lia
             | cbn; lia ]).
    cbn [lines words bytes max_line_length]. f_equal. f_equal. lia.
  - cbn [main_loop].
    rewrite (main_step_file loc env options nfiles b total_stats sb ib w
               Hn Ht Hdb Hfb Hwb) by lia.
    rewrite (main_step_file loc env options nfiles a _ sa ia _
               Hn) by
      (first [ exact Hda | exact Hfa | exact Hwa
             | unfold stats_representable, representable; cbn; lia
             | cbn; lia ]).
    cbn [lines words bytes max_line_length]. f_equal. f_equal; lia.
Qed.

(** A file of 1 line, 1 word, 2 bytes and width 1, and a file of no
    line, 2 words, 4 bytes and width 4. *)
Lemma total_is_order_independent_witness :
  let env := env_of [] [("a", bytes_of ("x" ++ newline));
                        ("b", bytes_of "yy z")]%string in
  exists (t : FileStatistics) (w1 w2 : world),
    main_loop c_locale env all_options 2 ["a"; "b"]%string zero_stats
              (start [])
    = running t w1
    /\ main_loop c_locale env all_options 2 ["b"; "a"]%string zero_stats
                 (start [])
       = running t w2
    /\ lines t = 1 /\ words t = 3 /\ bytes t = 6 /\ max_line_length t = 4.
Proof.
  intros env.
  exact (total_is_order_independent c_locale env all_options 2 "a" "b"
           zero_stats (mkStats 1 1 2 1) (mkStats 0 2 4 4) at_eof at_eof
           (start [])
           eq_refl zero_stats_representable eq_refl eq_refl eq_refl eq_refl
           ltac:(vm_compute; reflexivity) ltac:(vm_compute; reflexivity)
           ltac:(vm_compute; discriminate) ltac:(vm_compute; discriminate)
           ltac:(vm_compute; discriminate)).
Defined.

(* ================================================================= *)
(** ** The driver: no operand *)

(** X18: with no operand, [main] counts the standard input, whatever the
    file system holds: on an input that ends cleanly it exits with
    status 0 having written one line, the requested counters followed by
    no name, and nothing on the error stream. *)
Theorem no_operand_counts_stdin
        (loc : Locale) (env : environment) (argv0 : string)
        (cs : list ascii) (o : Options) (data : list ascii) (w : world) :
  parse_options cs = value o ->
  cin w = open_on data ->
  exists s : FileStatistics,
    wc loc (effective o) (open_on data) = (value s, at_eof)
    /\ main loc env argv0 cs [] w
       = (0, mkWorld at_eof
               (cout w
                ++ concat_strings (map (format_count loc)
                                       (requested_fields (effective o) s))
                ++ newline)%string
               (cerr w)).
Proof.
  intros Hp Hin.
  rewrite (main_without_operands loc env argv0 cs o w Hp).
  unfold wc_file_stdin. rewrite Hin, wc_result. cbv zeta.
  eexists. split; [reflexivity|].
  unfold put_cout, store. cbn [cin cout cerr].
  unfold EXIT_SUCCESS. do 2 f_equal.
  unfold write_counts, requested_fields.
  destruct (count_lines (effective o)), (count_words (effective o)),
    (count_bytes (effective o)), (count_max_line_length (effective o));
    cbn [app map concat_strings fold_right];
    rewrite ?append_assoc, ?append_nil_r; reflexivity.
Qed.

(** "a b" and a newline on the standard input, with no option. *)
Lemma no_operand_counts_stdin_witness :
  main c_locale (env_of ["stdin"]%string []) "wc" [] []
       (start (bytes_of ("a b" ++ newline)%string))
  = (0, mkWorld at_eof
          ("        1        2        4" ++ newline)%string
          EmptyString).
Proof.
  destruct (no_operand_counts_stdin c_locale (env_of ["stdin"]%string [])
              "wc" [] (mkOptions false false false false)
              (bytes_of ("a b" ++ newline)%string)
              (start (bytes_of ("a b" ++ newline)%string)) eq_refl eq_refl)
    as (s & Hs & Hmain).
  vm_compute in Hs. injection Hs as <-. exact Hmain.
Defined.

(* ================================================================= *)
(** ** The driver: what is written stays written *)

Lemma extends_refl (s : string) : extends s s.
Proof. exists EmptyString. now rewrite append_nil_r. Qed.

Lemma extends_trans (s t u : string) :
  extends s t -> extends t u -> extends s u.
Proof.
  intros [x ->] [y ->]. exists (x ++ y)%string. apply append_assoc.
Qed.

Lemma extends_app (s u : string) : extends s (s ++ u).
Proof. now exists u. Qed.

Lemma world_extends_refl (w : world) : world_extends w w.
Proof. split; apply extends_refl. Qed.

Lemma world_extends_trans (w1 w2 w3 : world) :
  world_extends w1 w2 -> world_extends w2 w3 -> world_extends w1 w3.
Proof.
  intros [H1 H2] [H3 H4]. split; eapply extends_trans; eassumption.
Qed.

Lemma write_counts_extends (loc : Locale) (os : string) (options : Options)
      (s : FileStatistics) (file : option string) :
  extends os (write_counts loc os options s file).
Proof.
  unfold write_counts.
  destruct (count_lines options), (count_words options),
    (count_bytes options), (count_max_line_length options), file;
    rewrite ?append_assoc; apply extends_app.
Qed.

Lemma put_cout_extends (w : world) (os : string) :
  extends (cout w) os -> world_extends w (put_cout w os).
Proof. intros H. split; [exact H|apply extends_refl]. Qed.

Lemma put_cerr_extends (w : world) (os : string) :
  extends (cerr w) os -> world_extends w (put_cerr w os).
Proof. intros H. split; [apply extends_refl|exact H]. Qed.

Lemma store_extends (w : world) (r : istream_ref) (ins : istream) :
  world_extends w (store w r ins).
Proof. destruct r; split; apply extends_refl. Qed.

Section Appending.
Variable loc : Locale.
Variable env : environment.
Variable options : Options.
Variable nfiles : Z.

Lemma wc_file_extends (r : istream_ref) (file : string)
      (total_stats : FileStatistics) (w : world) :
  world_extends w
    (snd (wc_file loc env options r file nfiles total_stats w)).
Proof.
  unfold wc_file.
  destruct (wc loc options (deref w r)) as [[s|e] ins'].
  - pose proof (store_extends w r ins') as H0.
    set (w0 := store w r ins') in *.
    pose proof (put_cout_extends w0 _
                  (write_counts_extends loc (cout w0) options s (Some file)))
      as H1.
    set (w1 := put_cout w0 _) in *.
    assert (H : world_extends w w1) by (eapply world_extends_trans; eauto).
    assert (He : forall msg : string,
               world_extends w (put_cerr w1 (cerr w1 ++ msg)%string)).
    { intros msg. eapply world_extends_trans; [exact H|].
      apply put_cerr_extends, extends_app. }
    destruct (1 <? nfiles); [|exact H].
    repeat match goal with
           | |- context [chkd_add ?x ?a ?b] =>
               destruct (chkd_add x a b) as [[] ?]; cbn [negb]
           end; cbn [snd]; first [exact H | apply He].
  - cbn [snd]. eapply world_extends_trans; [apply store_extends|].
    apply put_cerr_extends. unfold read_err. apply extends_app.
Qed.

Lemma main_step_extends (arg : string) (total_stats : FileStatistics)
      (w : world) :
  world_extends w
    (outcome_world (main_step loc env options nfiles arg total_stats w)).
Proof.
  unfold main_step, terminate.
  destruct (is_directory env arg) as [[|]|report].
  - cbn [outcome_world]. eapply world_extends_trans.
    + apply put_cerr_extends, extends_app.
    + apply put_cout_extends, write_counts_extends.
  - destruct (is_regular_file env arg) as [[|]|report].
    + pose proof (wc_file_extends (ref_file (ifstream env arg)) arg
                    total_stats w) as H.
      destruct (wc_file _ _ _ _ _ _ _ _) as [[status t] w'].
      now destruct (status =? EXIT_FAILURE).
    + destruct (arg =? "-")%string.
      * pose proof (wc_file_extends ref_cin arg total_stats w) as H.
        destruct (wc_file _ _ _ _ _ _ _ _) as [[status t] w'].
        now destruct (status =? EXIT_FAILURE).
      * cbn [outcome_world]. apply put_cerr_extends, extends_app.
    + cbn [outcome_world]. apply put_cerr_extends, extends_app.
  - cbn [outcome_world]. apply put_cerr_extends, extends_app.
Qed.

Lemma main_loop_extends (args : list string) :
  forall (total_stats : FileStatistics) (w : world),
    world_extends w
      (outcome_world (main_loop loc env options nfiles args total_stats w)).
Proof.
  induction args as [|arg args IH]; intros total_stats w.
  - apply world_extends_refl.
  - cbn [main_loop].
    pose proof (main_step_extends arg total_stats w) as H.
    destruct (main_step loc env options nfiles arg total_stats w)
      as [status w'|t w']; cbn [outcome_world] in H; [exact H|].
    eapply world_extends_trans; [exact H|apply IH].
Qed.

End Appending.

(** X19: [main] only ever appends to its output: whatever the options,
    the operands, the file system and the standard input, what was on
    the standard output and on the error stream before the run is still
    there, unchanged, at the start of what is there after it. *)
Theorem main_only_appends
        (loc : Locale) (env : environment) (argv0 : string)
        (cs : list ascii) (args : list string) (w : world) :
  world_extends w (snd (main loc env argv0 cs args w)).
Proof.
  unfold main.
  destruct (parse_options cs) as [o|[|]].
  - set (o' := if negb _ then _ else o).
    destruct args as [|a args].
    + unfold wc_file_stdin.
      destruct (wc loc o' (cin w)) as [[s|e] ins']; cbn [snd].
      * eapply world_extends_trans; [apply (store_extends w ref_cin)|].
        apply put_cout_extends, write_counts_extends.
      * eapply world_extends_trans; [apply (store_extends w ref_cin)|].
        apply put_cerr_extends. unfold read_err. apply extends_app.
    + pose proof (main_loop_extends loc env o'
                    (Z.of_nat (length (a :: args))) (a :: args)
                    zero_stats w) as H.
      destruct (main_loop _ _ _ _ _ _ _) as [status w'|t w'];
        cbn [outcome_world] in H; [exact H|].
      destruct (1 <? _); cbn [snd]; [|exact H].
      eapply world_extends_trans; [exact H|].
      apply put_cout_extends, write_counts_extends.
  - cbn [snd]. apply put_cout_extends. unfold help. apply extends_app.
  - cbn [snd]. apply put_cerr_extends. unfold usage_err, parse_options_cerr.
    destruct (parse_options cs) as [o|[|]]; rewrite ?append_assoc;
      apply extends_app.
Qed.

(* ================================================================= *)
(** ** wc: the column *)

Section ColumnBounds.
Variable loc : Locale.

Lemma classify_column_step (st : counter) (c : ascii) :
  0 <= line_pos st -> line_pos st + 8 <= UINTMAX_MAX ->
  let st' := classify loc st c in
  0 <= line_pos st' <= line_pos st + 8
  /\ Z.max (line_pos st) (max_line_length (stats st))
     <= Z.max (line_pos st') (max_line_length (stats st'))
     <= Z.max (max_line_length (stats st)) (line_pos st + 8).
Proof.
  intros H0 Hmax. cbv zeta.
  destruct (line_break c) eqn:Hc.
  - destruct (classify_line_break loc st c Hc) as (Hm & Hp & _).
    rewrite Hm, Hp. lia.
  - rewrite (classify_no_break_column loc st c Hc H0 Hmax).
    rewrite (classify_no_break_max loc st c Hc).
    pose proof (advance_bounds loc (line_pos st) c H0). lia.
Qed.

Lemma fold_column_bounds (l : list ascii) :
  forall st : counter,
    0 <= line_pos st ->
    line_pos st + 8 * Z.of_nat (length l) <= UINTMAX_MAX ->
    let st' := fold_left (classify loc) l st in
    0 <= line_pos st' <= line_pos st + 8 * Z.of_nat (length l)
    /\ Z.max (line_pos st) (max_line_length (stats st))
       <= Z.max (line_pos st') (max_line_length (stats st'))
       <= Z.max (max_line_length (stats st))
                (line_pos st + 8 * Z.of_nat (length l)).
Proof.
  induction l as [|c l IH]; intros st H0 Hmax; cbv zeta.
  - cbn [fold_left length]. lia.
  - cbn [fold_left length] in *.
    pose proof (classify_column_step st c H0 ltac:(lia)) as Hs.
    cbv zeta in Hs.
    pose proof (IH (classify loc st c) ltac:(lia) ltac:(lia)) as Hl.
    cbv zeta in Hl. lia.
Qed.

(** A tab moves the column forward, by 8 at most, to a multiple of 8. *)
Lemma tab_stop (col : Z) :
  0 <= col ->
  col < col + (8 - col mod 8) <= col + 8
  /\ (col + (8 - col mod 8)) mod 8 = 0.
Proof.
  intros H. pose proof (Z.mod_pos_bound col 8 ltac:(lia)) as Hm.
  split; [lia|].
  rewrite (Z.div_mod col 8) at 1 by lia.
  replace (8 * (col / 8) + col mod 8 + (8 - col mod 8))
    with ((col / 8 + 1) * 8) by lia.
  apply Z_mod_mult.
Qed.

End ColumnBounds.

(** X20: in every locale and whatever the state of the counter, a tab
    moves the column forward to the next multiple of 8, and changes
    neither the statistics nor anything else than the column and the
    word state, as long as the counter can hold the new column. *)
Theorem tab_moves_to_next_stop (loc : Locale) (st : counter) :
  0 <= line_pos st ->
  line_pos st + 8 <= UINTMAX_MAX ->
  let st' := classify loc st "009" in
  line_pos st < line_pos st' <= line_pos st + 8
  /\ line_pos st' mod 8 = 0
  /\ stats st' = stats st
  /\ in_word st' = false.
Proof.
  intros H0 Hmax. cbv zeta. rewrite classify_tab.
  cbn [line_pos stats in_word]. unfold tab_width.
  destruct (tab_stop (line_pos st) H0) as (Hb & Hm).
  rewrite wrap_small by lia. repeat split; try lia; exact Hm.
Qed.

(** From column 9 a tab goes to column 16. *)
Lemma tab_moves_to_next_stop_witness :
  let st' := classify c_locale (mkCounter zero_stats true 9) "009" in
  9 < line_pos st' <= 9 + 8
  /\ line_pos st' mod 8 = 0
  /\ stats st' = zero_stats
  /\ in_word st' = false.
Proof.
  exact (tab_moves_to_next_stop c_locale (mkCounter zero_stats true 9)
           ltac:(vm_compute; discriminate) ltac:(vm_compute; discriminate)).
Defined.

Lemma starts_in_run_count_runs (ws : ascii -> bool) (l : list ascii) :
  starts_in_run ws l = true -> (1 <= count_runs ws l)%nat.
Proof.
  intros H. pose proof (run_starts_count_runs ws l true) as E.
  rewrite H in E. cbn [andb] in E. lia.
Qed.

(** X21: no counter goes down when the input grows: in every locale and
    for every selection of counters, each of the four statistics of an
    input followed by more bytes is at least that of the input alone. *)
Theorem counters_grow_with_input
        (loc : Locale) (options : Options) (a b : list ascii) :
  8 * Z.of_nat (length (a ++ b)) <= UINTMAX_MAX ->
  exists sa sab : FileStatistics,
    wc loc options (open_on a) = (value sa, at_eof)
    /\ wc loc options (open_on (a ++ b)) = (value sab, at_eof)
    /\ lines sa <= lines sab
    /\ words sa <= words sab
    /\ bytes sa <= bytes sab
    /\ max_line_length sa <= max_line_length sab.
Proof.
  intros Hmax. rewrite length_app in Hmax.
  destruct (classifying options) eqn:Hc.
  - rewrite !(wc_classified loc options _ Hc). cbv zeta.
    do 2 eexists. split; [reflexivity|]. split; [reflexivity|].
    cbn [lines words bytes max_line_length].
    pose proof (count_byte_le "010" a). pose proof (count_byte_le "010" b).
    pose proof (count_runs_le (separator loc) a).
    pose proof (count_runs_le (separator loc) b).
    pose proof (count_runs_app (separator loc) a b) as Hruns.
    assert (Hj : ((if joined (separator loc) a b then 1 else 0)
                  <= count_runs (separator loc) b)%nat).
    { unfold joined.
      destruct (ends_in_run (separator loc) false a); cbn [andb]; [|lia].
      destruct (starts_in_run (separator loc) b) eqn:Hs; [|lia].
      now apply starts_in_run_count_runs. }
    rewrite count_byte_app, length_app, !wrap_small by lia.
    repeat split; try lia.
    rewrite fold_left_app.
    pose proof (fold_column_bounds loc a init_counter) as Ha.
    cbv zeta in Ha. cbn [init_counter line_pos] in Ha.
    specialize (Ha ltac:(lia) ltac:(lia)).
    fold init_counter in Ha.
    pose proof (fold_column_bounds loc b
                  (fold_left (classify loc) a init_counter)) as Hb.
    cbv zeta in Hb. specialize (Hb ltac:(lia) ltac:(lia)). lia.
  - rewrite !(wc_unclassified loc options _ Hc).
    do 2 eexists. split; [reflexivity|]. split; [reflexivity|].
    cbn [lines words bytes max_line_length].
    rewrite length_app, !wrap_small by lia. lia.
Qed.

(** "ab" followed by a newline and "c". *)
Lemma counters_grow_with_input_witness :
  exists sa sab : FileStatistics,
    wc c_locale all_options (open_on (bytes_of "ab")) = (value sa, at_eof)
    /\ wc c_locale all_options
          (open_on (bytes_of "ab" ++ bytes_of (newline ++ "c")%string))
       = (value sab, at_eof)
    /\ lines sa <= lines sab
    /\ words sa <= words sab
    /\ bytes sa <= bytes sab
    /\ max_line_length sa <= max_line_length sab.
Proof.
  exact (counters_grow_with_input c_locale all_options (bytes_of "ab")
           (bytes_of (newline ++ "c")%string)
           ltac:(vm_compute; discriminate)).
Defined.

(** X22: a byte takes 8 columns at most: in every locale and for every
    selection of counters the maximum line length reported is no more
    than 8 times the bytes reported, and is not negative. *)
Theorem max_line_length_within_8_bytes
        (loc : Locale) (options : Options) (data : list ascii) :
  8 * Z.of_nat (length data) <= UINTMAX_MAX ->
  exists s : FileStatistics,
    wc loc options (open_on data) = (value s, at_eof)
    /\ 0 <= max_line_length s <= 8 * bytes s.
Proof.
  intros Hmax. destruct (classifying options) eqn:Hc.
  - rewrite (wc_classified loc options _ Hc). cbv zeta.
    eexists. split; [reflexivity|]. cbn [bytes max_line_length].
    rewrite wrap_small by lia.
    pose proof (fold_column_bounds loc data init_counter) as H.
    cbv zeta in H. cbn [init_counter line_pos] in H.
    specialize (H ltac:(lia) ltac:(lia)). fold init_counter in H.
    change (max_line_length (stats init_counter)) with 0 in H. lia.
  - rewrite (wc_unclassified loc options _ Hc).
    eexists. split; [reflexivity|]. cbn [bytes max_line_length].
    rewrite wrap_small by lia. lia.
Qed.

(** Two tabs: 2 bytes and 16 columns. *)
Lemma max_line_length_within_8_bytes_witness :
  exists s : FileStatistics,
    wc c_locale all_options (open_on ["009"; "009"]%char)
    = (value s, at_eof)
    /\ 0 <= max_line_length s <= 8 * bytes s.
Proof.
  exact (max_line_length_within_8_bytes c_locale all_options
           ["009"; "009"]%char ltac:(vm_compute; discriminate)).
Defined.

(* ================================================================= *)
(** ** wc: when it fails *)

Lemma istream_read_no_fault (ins : istream) (n : nat) :
  faulty ins = false -> badbit ins = false ->
  faulty (snd (istream_read ins n)) = false
  /\ badbit (snd (istream_read ins n)) = false.
Proof.
  intros Hf Hb. unfold istream_read.
  destruct (negb (ios_good ins)); [now cbn|].
  destruct (n <=? length (source ins))%nat; [now cbn|].
  rewrite Hf. now cbn.
Qed.

Lemma wc_loop_no_fault (loc : Locale) (options : Options) (n : nat) :
  forall (fuel : nat) (st : counter) (ins : istream),
    faulty ins = false -> badbit ins = false ->
    badbit (snd (wc_loop loc fuel n options st ins)) = false.
Proof.
  induction fuel as [|fuel IH]; intros st ins Hf Hb; [exact Hb|].
  cbn [wc_loop]. destruct (ios_fail ins); [exact Hb|].
  destruct (istream_read_no_fault ins n Hf Hb) as (Hf' & Hb').
  destruct (istream_read ins n) as [[|c buf] ins']; cbn [snd] in *;
    [exact Hb'|].
  now apply IH.
Qed.

(** X23: the end of the input is never an error: on a stream that is
    not bad and whose source does not fault, in whatever state it is
    otherwise, [wc] returns statistics, in every locale and for every
    selection of counters, and leaves the stream not bad. *)
Theorem end_of_input_is_no_error
        (loc : Locale) (options : Options) (ins : istream) :
  faulty ins = false ->
  badbit ins = false ->
  exists (s : FileStatistics) (ins' : istream),
    wc loc options ins = (value s, ins') /\ badbit ins' = false.
Proof.
  intros Hf Hb. unfold wc.
  pose proof (wc_loop_no_fault loc options bufsize
                (S (length (source ins))) init_counter ins Hf Hb) as H.
  destruct (wc_loop _ _ _ _ _ _) as [st ins']. cbn [snd] in H.
  unfold ios_bad. rewrite H. do 2 eexists. split; [reflexivity|exact H].
Qed.

(** A stream with eofbit already set, and the empty input. *)
Lemma end_of_input_is_no_error_witness :
  (exists (s : FileStatistics) (ins' : istream),
      wc c_locale all_options (mkIstream (bytes_of "ab") false true false false)
      = (value s, ins') /\ badbit ins' = false)
  /\ (exists (s : FileStatistics) (ins' : istream),
         wc c_locale all_options (open_on []) = (value s, ins')
         /\ badbit ins' = false).
Proof.
  split.
  - exact (end_of_input_is_no_error c_locale all_options
             (mkIstream (bytes_of "ab") false true false false)
             eq_refl eq_refl).
  - exact (end_of_input_is_no_error c_locale all_options (open_on [])
             eq_refl eq_refl).
Defined.

(* ================================================================= *)
(** ** The driver: files that fault, directories, paths that are not there *)

(** X24: a file whose source faults makes [wc] return the error, which
    carries no statistics.  In the loop over the operands, wherever the
    file stands, the diagnostic of that operand is written on the error
    stream, nothing is written on the standard output, the total and the
    standard input are left as they were and the loop goes on with the
    operands that follow.  With no operand at all, the same fault on the
    standard input makes [main] exit with [EXIT_FAILURE]. *)
Theorem file_read_fault_is_reported
        (loc : Locale) (env : environment) (options : Options)
        (data : list ascii) :
  fst (wc loc options (open_faulty data)) = unexpected false
  /\ (forall (nfiles : Z) (pre : list string) (arg : string)
             (rest : list string) (total0 total_stats : FileStatistics)
             (w0 w : world),
         main_loop loc env options nfiles pre total0 w0
         = running total_stats w ->
         is_directory env arg = answers false ->
         is_regular_file env arg = answers true ->
         ifstream env arg = open_faulty data ->
         main_loop loc env options nfiles (pre ++ arg :: rest) total0 w0
         = main_loop loc env options nfiles rest total_stats
             (mkWorld (cin w) (cout w)
                      (read_err (errno_message env) (cerr w) arg)))
  /\ (forall (argv0 : string) (cs : list ascii) (o : Options) (w : world),
         parse_options cs = value o ->
         options = effective o ->
         cin w = open_faulty data ->
         exists ins' : istream,
           main loc env argv0 cs [] w
           = (EXIT_FAILURE,
              mkWorld ins' (cout w)
                      (read_err (errno_message env) (cerr w) "stdin"))
           /\ EXIT_FAILURE <> 0).
Proof.
  pose proof (wc_faulty loc options data) as Hwc.
  split; [exact Hwc|]. split.
  - intros nfiles pre arg rest total0 total_stats w0 w Hpre Hd Hf Hs.
    rewrite main_loop_app, Hpre. cbn [main_loop].
    unfold main_step. rewrite Hd, Hf, Hs. unfold wc_file. cbn [deref].
    destruct (wc loc options (open_faulty data)) as [res ins'].
    cbn [fst] in Hwc. subst res. cbn iota beta.
    change (EXIT_SUCCESS =? EXIT_FAILURE) with false. cbv iota.
    reflexivity.
  - intros argv0 cs o w Hp -> Hd.
    rewrite (main_without_operands loc env argv0 cs o w Hp).
    unfold wc_file_stdin. rewrite Hd.
    destruct (wc loc (effective o) (open_faulty data)) as [res ins'].
    cbn [fst] in Hwc. subst res.
    exists ins'. split; [reflexivity|discriminate].
Qed.

(** A file that faults after three bytes, after one file that reads
    well and before another; and the standard input faulting when no
    operand is given. *)
Lemma file_read_fault_is_reported_witness :
  let env :=
    mkEnv (fun _ => answers false) (fun _ => answers true)
          (fun p => if (p =? "bad")%string
                    then open_faulty (bytes_of "abc")
                    else open_on (bytes_of "x"))
          "Input/output error"%string EmptyString in
  main_loop c_locale env all_options 3 ["a"; "bad"; "b"]%string
            zero_stats (start [])
  = main_loop c_locale env all_options 3 ["b"]%string (mkStats 0 1 1 1)
      (mkWorld (open_on [])
               ("        0        1        1        1  a" ++ newline)
               ("error: failed to process 'bad': Input/output error"
                  ++ newline))%string
  /\ (exists ins' : istream,
         main c_locale env "wc" [] []
              (mkWorld (open_faulty (bytes_of "abc")) EmptyString EmptyString)
         = (EXIT_FAILURE,
            mkWorld ins' EmptyString
              ("error: failed to process 'stdin': Input/output error"
                 ++ newline)%string)
         /\ EXIT_FAILURE <> 0).
Proof.
  intros env.
  split.
  - exact (proj1 (proj2 (file_read_fault_is_reported c_locale env all_options
                           (bytes_of "abc")))
             3 ["a"%string] "bad"%string ["b"%string] zero_stats
             (mkStats 0 1 1 1) (start [])
             (mkWorld (open_on [])
                ("        0        1        1        1  a" ++ newline)%string
                EmptyString)
             ltac:(vm_compute; reflexivity) eq_refl eq_refl eq_refl).
  - exact (proj2 (proj2 (file_read_fault_is_reported c_locale env
                           (mkOptions true true true false)
                           (bytes_of "abc")))
             "wc"%string [] (mkOptions false false false false)
             (mkWorld (open_faulty (bytes_of "abc")) EmptyString EmptyString)
             eq_refl eq_refl eq_refl).
Defined.

(** X25: wherever it stands among the operands, an operand that the
    file system answers to be a directory gets a diagnostic on the error
    stream and a line of zero counts on the standard output, and an
    operand that it answers to be neither a directory nor a regular
    file, and that is not ["-"], gets a diagnostic only.  Either way the
    total is left as it was and the loop goes on with the operands that
    follow. *)
Theorem directory_and_missing_operands
        (loc : Locale) (env : environment) (options : Options) (nfiles : Z)
        (pre : list string) (arg : string) (rest : list string)
        (total0 total_stats : FileStatistics) (w0 w : world) :
  main_loop loc env options nfiles pre total0 w0 = running total_stats w ->
  (is_directory env arg = answers true ->
   main_loop loc env options nfiles (pre ++ arg :: rest) total0 w0
   = main_loop loc env options nfiles rest total_stats
       (mkWorld (cin w)
                (write_counts loc (cout w) options zero_stats (Some arg))
                (cerr w ++ "wc: " ++ arg ++ ": Is a directory." ++ newline)))
  /\ (is_directory env arg = answers false ->
      is_regular_file env arg = answers false ->
      arg <> "-" ->
      main_loop loc env options nfiles (pre ++ arg :: rest) total0 w0
      = main_loop loc env options nfiles rest total_stats
          (mkWorld (cin w) (cout w)
                   (cerr w ++ "wc: " ++ arg ++ ": No such file or directory."
                           ++ newline)))%string.
Proof.
  intros Hpre. split.
  - intros Hd. rewrite main_loop_app, Hpre.
    cbn [main_loop]. unfold main_step. now rewrite Hd.
  - intros Hd Hf Hs. rewrite main_loop_app, Hpre.
    cbn [main_loop]. unfold main_step. rewrite Hd, Hf.
    apply String.eqb_neq in Hs. now rewrite Hs.
Qed.

(** A directory and a path that is not there, each between two files. *)
Lemma directory_and_missing_operands_witness :
  let env := env_of ["d"]%string [("a", bytes_of ("x" ++ newline))]%string in
  main_loop c_locale env all_options 3 ["a"; "d"; "a"]%string zero_stats
            (start [])
  = main_loop c_locale env all_options 3 ["a"]%string (mkStats 1 1 2 1)
      (mkWorld (open_on [])
               ("        1        1        2        1  a" ++ newline ++
                "        0        0        0        0  d" ++ newline)
               ("wc: d: Is a directory." ++ newline))%string
  /\ main_loop c_locale env all_options 3 ["a"; "nope"; "a"]%string
               zero_stats (start [])
     = main_loop c_locale env all_options 3 ["a"]%string (mkStats 1 1 2 1)
         (mkWorld (open_on [])
                  ("        1        1        2        1  a" ++ newline)
                  ("wc: nope: No such file or directory." ++ newline))%string.
Proof.
  intros env. split.
  - exact (proj1 (directory_and_missing_operands c_locale env all_options 3
                    ["a"%string] "d" ["a"%string] zero_stats
                    (mkStats 1 1 2 1) (start [])
                    (mkWorld (open_on [])
                       ("        1        1        2        1  a"
                          ++ newline)%string EmptyString)
                    ltac:(vm_compute; reflexivity)) eq_refl).
  - exact (proj2 (directory_and_missing_operands c_locale env all_options 3
                    ["a"%string] "nope" ["a"%string] zero_stats
                    (mkStats 1 1 2 1) (start [])
                    (mkWorld (open_on [])
                       ("        1        1        2        1  a"
                          ++ newline)%string EmptyString)
                    ltac:(vm_compute; reflexivity))
             eq_refl eq_refl ltac:(discriminate)).
Defined.

(* ================================================================= *)
(** ** Runs of the model *)

Example wc_hello :
  fst (wc c_locale all_options (open_on (bytes_of "  hello   world  ")))
  = value (mkStats 0 2 17 17).
Proof. vm_compute. reflexivity. Qed.

(** Two files with the flags [-l -w -c]: the total line adds them up. *)
Example main_two_files :
  main c_locale
       (env_of [] [("a", bytes_of ("a" ++ newline ++ "b" ++ newline));
                   ("c", bytes_of ("c" ++ newline))]%string)
       "wc" (bytes_of "lwc") ["a"; "c"]%string (start [])
  = (0, mkWorld (mkIstream [] false false false false)
          ("        2        2        4  a" ++ newline ++
           "        1        1        2  c" ++ newline ++
           "        3        3        6  total" ++ newline)
          "")%string.
Proof. vm_compute. reflexivity. Qed.

(** The standard input named twice: the second reading finds the stream
    at its end. *)
Example main_stdin_twice :
  main c_locale (env_of [] []) "wc" [] ["-"; "-"]%string
       (start (bytes_of ("x" ++ newline)))
  = (0, mkWorld (mkIstream [] false true true false)
          ("        1        1        2  -" ++ newline ++
           "        0        0        0  -" ++ newline ++
           "        1        1        2  total" ++ newline)
          "")%string.
Proof. vm_compute. reflexivity. Qed.

(** No operand: the standard input, and a line without a name. *)
Example main_no_operand :
  main c_locale (env_of [] []) "wc" (bytes_of "L") []
       (start (bytes_of ("a" ++ String "009" "b")))
  = (0, mkWorld (mkIstream [] false true true false)
          ("        9" ++ newline) "")%string.
Proof. vm_compute. reflexivity. Qed.

(** An option that is not recognised: the line of [getopt_long], then
    the usage message. *)
Example main_unknown_option :
  main c_locale
       (reporting ("wc: invalid option -- 'x'" ++ newline) (env_of [] []))
       "wc" (bytes_of "l?") ["a"]%string (start [])
  = (EXIT_FAILURE,
     mkWorld (open_on []) ""
       ("wc: invalid option -- 'x'" ++ newline ++
        "The syntax of the command is incorrect." ++ newline ++
        "Try wc -h for more information." ++ newline))%string.
Proof. vm_compute. reflexivity. Qed.

(** The standard input named by an operand and faulting after three
    bytes: the counts so far, and no diagnostic. *)
Example main_dash_fault :
  main c_locale (env_of [] []) "wc" [] ["-"; "-"]%string
       (mkWorld (open_faulty (bytes_of "a b")) "" "")%string
  = (0, mkWorld (mkIstream [] false true true false)
          ("        0        2        3  -" ++ newline ++
           "        0        0        0  -" ++ newline ++
           "        0        2        3  total" ++ newline)
          "")%string.
Proof. vm_compute. reflexivity. Qed.

(** A directory, a path that names nothing and a file: two diagnostics,
    two lines, a total and the exit status 0. *)
Example main_directory_and_missing :
  main c_locale
       (env_of ["d"]%string [("a", bytes_of ("x" ++ newline))]%string)
       "wc" [] ["d"; "nope"; "a"]%string (start [])
  = (0, mkWorld (open_on [])
          ("        0        0        0  d" ++ newline ++
           "        1        1        2  a" ++ newline ++
           "        1        1        2  total" ++ newline)
          ("wc: d: Is a directory." ++ newline ++
           "wc: nope: No such file or directory." ++ newline))%string.
Proof. vm_compute. reflexivity. Qed.
